(** * SkillSwap backend: the rating / coin / badge settlement of [rate_session]

    A shallow embedding of [src/main.py] (handler [rate_session], helper [oid])
    over the document shapes of [src/schemas.py], and the properties of the
    settlement sequence proved about it.

    Modelling choices, all visible in the definitions below:
    - a stored document is the record its schema class describes; the only
      place the repository inserts a user is [register], which dumps a whole
      [User], so the [.get(field, default)] reads of the handler always find
      the field;
    - [db["user"]] and [db["session"]] are finite maps from [ObjectId] to
      documents; [db["rating"]] is the list of inserted documents, newest
      first (ratings are never looked up again);
    - [bson.ObjectId] is not part of the repository: its type and its
      constructor on strings are parameters of the development;
    - Python [float] is IEEE binary64, here Rocq's primitive floats;
      Python [int] is [Z];
    - the two readings of [now_utc()] are inputs of the handler;
    - an [HTTPException], or an uncaught Python error, ends the handler and
      leaves the store as it is at that point: there is no transaction. *)

From Stdlib Require Import ZArith Ascii String List Uint63 PrimFloat.
From stdpp Require Import base option list strings gmap.

Local Open Scope string_scope.
Local Open Scope Z_scope.

(** ** Documents ([src/schemas.py]) *)

Inductive Day :=
  Monday | Tuesday | Wednesday | Thursday | Friday | Saturday | Sunday.

Record AvailabilitySlot := {
  day : Day;
  slots : list string
}.

Record User := {
  email : string;
  password_hash : string;
  name : string;
  age : option Z;
  city : option string;
  teach_skills : list string;
  learn_skills : list string;
  availability : list AvailabilitySlot;
  coins : Z;
  rating_avg : float;
  rating_count : Z;
  badges : list string;
  teaching_sessions : Z;
  learning_sessions : Z;
  user_created_at : option Z;
  user_updated_at : option Z
}.

Inductive Status := scheduled | completed | cancelled.

Record Session := {
  chat_id : string;
  teacher_id : string;
  learner_id : string;
  duration : Z;
  scheduled_time : string;
  status : Status;
  meet_link : option string;
  zoom_link : option string;
  created_at : option Z;
  updated_at : option Z
}.

Record Rating := {
  rating_session_id : string;
  rating_rater_id : string;
  rating_ratee_id : string;
  rating_score : Z;
  rating_feedback : option string;
  rating_created_at : option Z
}.

(** The request body of [POST /sessions/rate]. *)
Record RatingRequest := {
  session_id : string;
  rater_id : string;
  ratee_id : string;
  score : Z;
  feedback : option string
}.

(** ** Errors and results *)

(** What ends the handler early: an [HTTPException] raised by the code, or
    the [ZeroDivisionError] Python raises on a float division by zero. *)
Inductive Error :=
  | HTTPException (status_code : Z) (detail : string)
  | ZeroDivisionError.

(** The body [{"ok": True}]. *)
Inductive Ack := Ok.

(** The spec's error classes are the HTTP status codes of the handler. *)
Definition InvalidArgument (e : Error) : Prop :=
  exists detail, e = HTTPException 400 detail.

Definition NotFound (e : Error) : Prop :=
  exists detail, e = HTTPException 404 detail.

(** ** Numbers *)

(** Python converts an [int] operand of a float operation to the nearest
    double. [of_uint63] does so for the naturals below [2^63], which covers
    every integer a BSON document can hold; the statements below that name a
    converted count keep it in that range. *)
Definition float_of_int (z : Z) : float :=
  if z <? 0 then PrimFloat.opp (PrimFloat.of_uint63 (Uint63.of_Z (- z)))
  else PrimFloat.of_uint63 (Uint63.of_Z z).

(** [((avg * (count - 1)) + req.score) / count]: the division raises when
    [count] converts to [0.0], that is when [count] is [0]. *)
Definition new_avg (avg : float) (count : Z) (score : Z) : Error + float :=
  if count =? 0 then inl ZeroDivisionError
  else inr (PrimFloat.div
              (PrimFloat.add (PrimFloat.mul avg (float_of_int (count - 1)))
                             (float_of_int score))
              (float_of_int count)).

(** Truth value of a Python [str]: the empty string is false. *)
Definition truthy (s : string) : bool :=
  match s with
  | EmptyString => false
  | String _ _ => true
  end.

(** ** Field updates of a user document *)

(** [{"$set": {"rating_avg": a, "rating_count": c}}] *)
Definition set_rating (a : float) (c : Z) (u : User) : User :=
  {| email := email u; password_hash := password_hash u; name := name u;
     age := age u; city := city u; teach_skills := teach_skills u;
     learn_skills := learn_skills u; availability := availability u;
     coins := coins u; rating_avg := a; rating_count := c;
     badges := badges u; teaching_sessions := teaching_sessions u;
     learning_sessions := learning_sessions u;
     user_created_at := user_created_at u;
     user_updated_at := user_updated_at u |}.

(** [{"$inc": {"coins": dc, "teaching_sessions": dt, "learning_sessions": dl}}] *)
Definition inc_counters (dc dt dl : Z) (u : User) : User :=
  {| email := email u; password_hash := password_hash u; name := name u;
     age := age u; city := city u; teach_skills := teach_skills u;
     learn_skills := learn_skills u; availability := availability u;
     coins := coins u + dc; rating_avg := rating_avg u;
     rating_count := rating_count u;
     badges := badges u; teaching_sessions := teaching_sessions u + dt;
     learning_sessions := learning_sessions u + dl;
     user_created_at := user_created_at u;
     user_updated_at := user_updated_at u |}.

(** [{"$set": {"badges": bs}}] *)
Definition set_badges (bs : list string) (u : User) : User :=
  {| email := email u; password_hash := password_hash u; name := name u;
     age := age u; city := city u; teach_skills := teach_skills u;
     learn_skills := learn_skills u; availability := availability u;
     coins := coins u; rating_avg := rating_avg u;
     rating_count := rating_count u;
     badges := bs; teaching_sessions := teaching_sessions u;
     learning_sessions := learning_sessions u;
     user_created_at := user_created_at u;
     user_updated_at := user_updated_at u |}.

(** [{"$set": {"status": "completed", "updated_at": t}}] *)
Definition complete (t : Z) (s : Session) : Session :=
  {| chat_id := chat_id s; teacher_id := teacher_id s;
     learner_id := learner_id s; duration := duration s;
     scheduled_time := scheduled_time s; status := completed;
     meet_link := meet_link s; zoom_link := zoom_link s;
     created_at := created_at s; updated_at := Some t |}.

(** The badge block of [rate_session]: the set built from the stored list,
    with the labels whose threshold the document [t] meets. *)
Definition badge_set (t : User) : gset string :=
  let badges0 : gset string := list_to_set (badges t) in
  let badges1 :=
    if 10 <=? teaching_sessions t then badges0 ∪ {["Top Mentor"]} else badges0 in
  let badges2 :=
    if 5 <=? learning_sessions t + teaching_sessions t
    then badges1 ∪ {["Skill Streak"]} else badges1 in
  if PrimFloat.ltb 4.5%float (rating_avg t)
  then badges2 ∪ {["Helpful Teacher"]} else badges2.

(** [list(badges)]: Python fixes no order for the elements of a set; the
    model takes the order of [elements], and the theorems speak of
    membership only. *)
Definition recompute_badges (t : User) : list string := elements (badge_set t).

(** ** Object ids ([bson.ObjectId], outside the repository) *)

(** [ObjectId_of s] is [Some k] when [ObjectId(s)] returns the id [k] and
    [None] when it raises. Ids are the keys of the collections. *)
Class ObjectIdModel := {
  ObjectId : Type;
  ObjectId_eq_dec :: EqDecision ObjectId;
  ObjectId_countable :: Countable ObjectId;
  ObjectId_of : string -> option ObjectId
}.

Section Model.
Context `{OIM : ObjectIdModel}.

(** ** The document store *)

(** The three collections [rate_session] touches. *)
Record Store := {
  user : gmap ObjectId User;
  session : gmap ObjectId Session;
  rating : list Rating
}.

(** A handler step: it reads and writes the store, and either returns a
    value or raises. The store it leaves is kept in both cases. *)
Definition M (A : Type) : Type := Store -> Store * (Error + A).

Definition ret {A} (a : A) : M A := fun st => (st, inr a).

Definition raise {A} (e : Error) : M A := fun st => (st, inl e).

Definition bind {A B} (m : M A) (k : A -> M B) : M B :=
  fun st =>
    match m st with
    | (st', inr a) => k a st'
    | (st', inl e) => (st', inl e)
    end.

Definition lift {A} (r : Error + A) : M A := fun st => (st, r).

Notation "x <- m ;; k" := (bind m (fun x => k))
  (at level 100, m at next level, right associativity).
Notation "m ;;; k" := (bind m (fun _ => k))
  (at level 100, right associativity).

(** [db["user"].find_one({"_id": k})]: the document with its [_id]. *)
Definition find_one_user (k : ObjectId) : M (option (ObjectId * User)) :=
  fun st => (st, inr (pair k <$> user st !! k)).

Definition find_one_session (k : ObjectId) : M (option (ObjectId * Session)) :=
  fun st => (st, inr (pair k <$> session st !! k)).

(** [db["user"].update_one({"_id": k}, upd)]: nothing happens when no
    document has the id. *)
Definition update_one_user (k : ObjectId) (upd : User -> User) : M unit :=
  fun st =>
    ({| user := alter upd k (user st); session := session st;
        rating := rating st |}, inr tt).

Definition update_one_session (k : ObjectId) (upd : Session -> Session) : M unit :=
  fun st =>
    ({| user := user st; session := alter upd k (session st);
        rating := rating st |}, inr tt).

(** [db["rating"].insert_one(doc)] *)
Definition insert_one_rating (r : Rating) : M unit :=
  fun st =>
    ({| user := user st; session := session st; rating := r :: rating st |},
     inr tt).

(** ** [src/main.py] *)

Definition oid (id_str : string) : M ObjectId :=
  match ObjectId_of id_str with
  | Some k => ret k
  | None => raise (HTTPException 400 "Invalid object id")
  end.

(** [# Update ratee rating] *)
Definition update_ratee_rating (req : RatingRequest) : M unit :=
  k <- oid (ratee_id req) ;;
  u <- find_one_user k ;;
  match u with
  | Some (_, u) =>
      let count := rating_count u + 1 in
      let avg := rating_avg u in
      new <- lift (new_avg avg count (score req)) ;;
      k' <- oid (ratee_id req) ;;
      update_one_user k' (set_rating new count)
  | None => ret tt
  end.

(** [# Coins logic] *)
Definition coins_logic (session_doc : Session) : M unit :=
  if truthy (teacher_id session_doc) && truthy (learner_id session_doc) then
    tk <- oid (teacher_id session_doc) ;;
    update_one_user tk (inc_counters 10 1 0) ;;;
    lk <- oid (learner_id session_doc) ;;
    update_one_user lk (inc_counters (-10) 0 1)
  else ret tt.

(** [# Mark session completed] *)
Definition mark_session_completed (req : RatingRequest) (now : Z) : M unit :=
  k <- oid (session_id req) ;;
  update_one_session k (complete now).

(** [# Badges] *)
Definition badges_block (session_doc : Session) : M unit :=
  t <- (if truthy (teacher_id session_doc)
        then tk <- oid (teacher_id session_doc) ;; find_one_user tk
        else ret None) ;;
  match t with
  | Some (t_id, t) => update_one_user t_id (set_badges (recompute_badges t))
  | None => ret tt
  end.

(** The handler once [db] is known to be configured. [now1] and [now2] are
    the two readings of [now_utc()]. *)
Definition rate_session_body (req : RatingRequest) (now1 now2 : Z) : M Ack :=
  if negb ((1 <=? score req) && (score req <=? 5)) then
    raise (HTTPException 400 "Score must be 1-5")
  else
    k <- oid (session_id req) ;;
    session_doc <- find_one_session k ;;
    match session_doc with
    | None => raise (HTTPException 404 "Session not found")
    | Some (_, session_doc) =>
        insert_one_rating
          {| rating_session_id := session_id req;
             rating_rater_id := rater_id req;
             rating_ratee_id := ratee_id req;
             rating_score := score req;
             rating_feedback := feedback req;
             rating_created_at := Some now1 |} ;;;
        update_ratee_rating req ;;;
        coins_logic session_doc ;;;
        mark_session_completed req now2 ;;;
        badges_block session_doc ;;;
        ret Ok
    end.

(** [rate_session]: [db] is [None] when no database is configured. *)
Definition rate_session (db : option Store) (req : RatingRequest)
    (now1 now2 : Z) : option Store * (Error + Ack) :=
  match db with
  | None => (None, inl (HTTPException 500 "Database not configured"))
  | Some st =>
      let '(st', r) := rate_session_body req now1 now2 st in (Some st', r)
  end.

(** A sequence of calls against a configured database, each with its two
    clock readings; a failed call still leaves its store to the next one. *)
Fixpoint run_calls (calls : list (RatingRequest * Z * Z)) (db : option Store)
    : option Store :=
  match calls with
  | [] => db
  | (req, now1, now2) :: rest =>
      run_calls rest (rate_session db req now1 now2).1
  end.

(** ** Vocabulary of the statements *)

(** The spec's formula [(avg * count + s) / (count + 1)], in binary64. *)
Definition mean_with (avg : float) (count : Z) (s : Z) : float :=
  PrimFloat.div
    (PrimFloat.add (PrimFloat.mul avg (float_of_int count)) (float_of_int s))
    (float_of_int (count + 1)).

(** The ratee document after one more score. *)
Definition rate_user (s : Z) (u : User) : User :=
  set_rating (mean_with (rating_avg u) (rating_count u) s) (rating_count u + 1) u.

(** A document with its badge list recomputed from its own fields. *)
Definition rebadge (u : User) : User := set_badges (recompute_badges u) u.

(** The session names both participants: the guard of the coin block. *)
Definition paid (s : Session) : bool :=
  truthy (teacher_id s) && truthy (learner_id s).

(** The ids the handler converts after the session is loaded are
    well-formed: the teacher id when it is populated, and the learner id
    when both are. *)
Definition participants_ok (s : Session) : bool :=
  (if truthy (teacher_id s) then bool_decide (is_Some (ObjectId_of (teacher_id s)))
   else true)
  && (if paid s then bool_decide (is_Some (ObjectId_of (learner_id s)))
      else true).

(** The stored rating count of the ratee is in the range of the data model:
    not negative, and with room for [n] more ratings in a 64-bit integer.
    Nothing is asked when the ratee is absent. *)
Definition ratee_count_room (n : Z) (st : Store) (rk : ObjectId) : bool :=
  match user st !! rk with
  | Some u => (0 <=? rating_count u) && (rating_count u + n <? 2 ^ 63)
  | None => true
  end.

Definition ratee_count_ok (st : Store) (rk : ObjectId) : bool :=
  ratee_count_room 1 st rk.

(** A settlement call: a request on which the handler runs the whole
    settlement sequence in store [st], because it meets the preconditions of
    [SubmitRating]. Its score is in range, its session id is well-formed and
    names the stored session [s], its ratee id is well-formed, and so are
    the participant ids of [s] that the handler converts; the ratee's count,
    if the ratee is stored, is in the data model's range. Nothing is asked
    of [rater_id]. *)
Record settlement_call (st : Store) (req : RatingRequest)
    (sk : ObjectId) (s : Session) (rk : ObjectId) : Prop := {
  sc_score : 1 <= score req <= 5;
  sc_session_id : ObjectId_of (session_id req) = Some sk;
  sc_session : session st !! sk = Some s;
  sc_ratee_id : ObjectId_of (ratee_id req) = Some rk;
  sc_ratee_count : ratee_count_ok st rk = true;
  sc_participants : participants_ok s = true
}.

(** The Rating document the handler inserts. *)
Definition rating_of (req : RatingRequest) (now1 : Z) : Rating :=
  {| rating_session_id := session_id req;
     rating_rater_id := rater_id req;
     rating_ratee_id := ratee_id req;
     rating_score := score req;
     rating_feedback := feedback req;
     rating_created_at := Some now1 |}.

(** The keys the coin block and the badge block write to, if any. *)
Definition coin_teacher (s : Session) : option ObjectId :=
  if paid s then ObjectId_of (teacher_id s) else None.

Definition coin_learner (s : Session) : option ObjectId :=
  if paid s then ObjectId_of (learner_id s) else None.

Definition badge_teacher (s : Session) : option ObjectId :=
  if truthy (teacher_id s) then ObjectId_of (teacher_id s) else None.

Definition alter_at (ko : option ObjectId) (f : User -> User)
    (m : gmap ObjectId User) : gmap ObjectId User :=
  match ko with
  | Some k0 => alter f k0 m
  | None => m
  end.

Definition at_key (ko : option ObjectId) (f : User -> User)
    (k : ObjectId) (u : User) : User :=
  if decide (ko = Some k) then f u else u.

(** What a settlement call does to the document stored under [k]. *)
Definition settled_user (req : RatingRequest) (s : Session)
    (k : ObjectId) (u : User) : User :=
  at_key (badge_teacher s) rebadge k
    (at_key (coin_learner s) (inc_counters (-10) 0 1) k
       (at_key (coin_teacher s) (inc_counters 10 1 0) k
          (at_key (ObjectId_of (ratee_id req)) (rate_user (score req)) k u))).

(** The coin and counter deltas of one settlement on the document under [k],
    when its teacher is [tk] and its learner [lk]. *)
Definition coin_delta (tk lk k : ObjectId) : Z :=
  (if decide (k = tk) then 10 else 0) + (if decide (k = lk) then -10 else 0).

Definition taught_delta (tk k : ObjectId) : Z := if decide (k = tk) then 1 else 0.

Definition learned_delta (lk k : ObjectId) : Z := if decide (k = lk) then 1 else 0.

(** The labels a document qualifies for, by the three thresholds. *)
Definition qualifies (t : User) (b : string) : Prop :=
  (b = "Top Mentor" ∧ 10 <= teaching_sessions t)
  ∨ (b = "Skill Streak" ∧ 5 <= teaching_sessions t + learning_sessions t)
  ∨ (b = "Helpful Teacher" ∧ PrimFloat.ltb 4.5%float (rating_avg t) = true).

(** The session stored under [sk] is completed, with [updated_at] at [now]. *)
Definition session_completed (sk : ObjectId) (now : Z) (st' : Store) : Prop :=
  ∃ s', session st' !! sk = Some s' ∧ status s' = completed
        ∧ updated_at s' = Some now.

(** Between [st] and [st'] every stored user got the coin and counter
    deltas of one settlement of session [s]. *)
Definition coins_settled (s : Session) (st st' : Store) : Prop :=
  ∀ tk lk,
    paid s = true →
    ObjectId_of (teacher_id s) = Some tk →
    ObjectId_of (learner_id s) = Some lk →
    ∀ k u, user st !! k = Some u →
      ∃ u', user st' !! k = Some u'
        ∧ coins u' = coins u + coin_delta tk lk k
        ∧ teaching_sessions u' = teaching_sessions u + taught_delta tk k
        ∧ learning_sessions u' = learning_sessions u + learned_delta lk k.

(** Between [st] and [st'] the badges of the teacher of [s] became the old
    ones together with the labels the new document qualifies for, and nobody
    else's badges changed. *)
Definition badges_recomputed (s : Session) (st st' : Store) : Prop :=
  (∀ tk t0,
     truthy (teacher_id s) = true →
     ObjectId_of (teacher_id s) = Some tk →
     user st !! tk = Some t0 →
     ∃ t', user st' !! tk = Some t'
       ∧ teaching_sessions t' =
           teaching_sessions t0 + (if paid s then 1 else 0)
       ∧ ∀ b, b ∈ badges t' ↔ b ∈ badges t0 ∨ qualifies t' b)
  ∧ (∀ k, badge_teacher s ≠ Some k →
       badges <$> user st' !! k = badges <$> user st !! k).

(** Every user of [st] is still stored in [st'], related by [rel]. *)
Definition users_rel (rel : User → User → Prop) (st st' : Store) : Prop :=
  ∀ k u, user st !! k = Some u → ∃ u', user st' !! k = Some u' ∧ rel u u'.

(** A step that takes every store to a [rel]-related one, whether it
    returns or raises. *)
Definition keeps (rel : User → User → Prop) {A} (m : M A) : Prop :=
  ∀ st, users_rel rel st (m st).1.

(** The rating fields are the same. *)
Definition same_rating (u u' : User) : Prop :=
  rating_count u' = rating_count u ∧ rating_avg u' = rating_avg u.

(** No badge is lost. *)
Definition badges_kept (u u' : User) : Prop :=
  ∀ b, b ∈ badges u → b ∈ badges u'.

End Model.

(** ** A reference instance of the id model, and sample data *)

Definition is_hex_digit (c : ascii) : bool :=
  let n := nat_of_ascii c in
  ((48 <=? n) && (n <=? 57) || (65 <=? n) && (n <=? 70)
   || (97 <=? n) && (n <=? 102))%nat.

Definition lower_hex (c : ascii) : ascii :=
  let n := nat_of_ascii c in
  if ((65 <=? n) && (n <=? 70))%nat then ascii_of_nat (n + 32) else c.

Fixpoint map_string (f : ascii -> ascii) (s : string) : string :=
  match s with
  | EmptyString => EmptyString
  | String c s' => String (f c) (map_string f s')
  end.

(** The documented form of an id: 24 hexadecimal digits, read without regard
    to case. *)
Definition hex24 (s : string) : option string :=
  if (String.length s =? 24)%nat
     && forallb is_hex_digit (list_ascii_of_string s)
  then Some (map_string lower_hex s) else None.

Definition hex_ids : ObjectIdModel :=
  {| ObjectId := string; ObjectId_of := hex24 |}.

Definition id_s := "5f00000000000000000000a1".
Definition id_t := "5f00000000000000000000b1".
Definition id_l := "5f00000000000000000000b2".
Definition id_x := "5f00000000000000000000c3".
Definition id_none := "5f00000000000000000000ff".

(** A user as [register] creates it, with the given counters. *)
Definition mk_user (mail : string) (c : Z) (avg : float) (n : Z)
    (bs : list string) (ts ls : Z) : User :=
  {| email := mail; password_hash := "mvp::pw"; name := ""; age := None;
     city := None; teach_skills := []; learn_skills := [];
     availability := []; coins := c; rating_avg := avg; rating_count := n;
     badges := bs; teaching_sessions := ts; learning_sessions := ls;
     user_created_at := Some 0; user_updated_at := Some 0 |}.

(** A session as [schedule_session] creates it. *)
Definition mk_session (t l : string) : Session :=
  {| chat_id := "c"; teacher_id := t; learner_id := l; duration := 30;
     scheduled_time := "2024-01-01T10:00"; status := scheduled;
     meet_link := None; zoom_link := None;
     created_at := Some 0; updated_at := Some 0 |}.

Definition teacher0 := mk_user "t@x.io" 20 4.75%float 4 [] 9 0.
Definition learner0 := mk_user "l@x.io" 5 0%float 0 ["Early Bird"] 0 0.
Definition other0 := mk_user "o@x.io" 20 3%float 2 [] 0 0.

Definition users0 : gmap (@ObjectId hex_ids) User :=
  <[id_t := teacher0]> (<[id_l := learner0]> (<[id_x := other0]> ∅)).

Definition store_of (s : Session) : Store (OIM := hex_ids) :=
  {| user := users0; session := <[id_s := s]> (∅ : gmap (@ObjectId hex_ids) _);
     rating := [] |}.

Definition store0 := store_of (mk_session id_t id_l).

Definition mk_req (sid rater ratee : string) (sc : Z) : RatingRequest :=
  {| session_id := sid; rater_id := rater; ratee_id := ratee; score := sc;
     feedback := None |}.

Definition run (st : Store (OIM := hex_ids)) (req : RatingRequest) :=
  rate_session (OIM := hex_ids) (Some st) req 100 101.

(** The store a call leaves. *)
Definition after (st : Store (OIM := hex_ids)) (req : RatingRequest)
    : Store (OIM := hex_ids) :=
  (rate_session_body (OIM := hex_ids) req 100 101 st).1.

Definition session0 : Session := mk_session id_t id_l.

Definition req0 : RatingRequest := mk_req id_s id_l id_t 5.

(** The teacher of the sample session holding "Helpful Teacher" at an
    average of 4.75, the store with that teacher, and a run of calls in
    which the learner rates the teacher 1 twice and a third call is
    refused. *)
Definition teacher_h := mk_user "t@x.io" 20 4.75%float 4 ["Helpful Teacher"] 9 0.

Definition store_h : Store (OIM := hex_ids) :=
  {| user := <[id_t := teacher_h]> users0;
     session := <[id_s := session0]> (∅ : gmap (@ObjectId hex_ids) _);
     rating := [] |}.

Definition low_ratings : list (RatingRequest * Z * Z) :=
  [(mk_req id_s id_l id_t 1, 100, 101); (mk_req id_s id_l id_t 1, 200, 201);
   (mk_req "42" id_t id_l 3, 300, 301)].


(** * The other handlers of [src/main.py] *)

From stdpp Require Import sorting.

Local Open Scope Z_scope.

(** ** The driver ([pymongo] and [bson], outside the repository) *)

(** Two more facts about the driver are used by the other handlers:
    [str(k)] of an object id, which [ObjectId] reads back as [k]; and the
    order in which a cursor over a collection yields its documents, about
    which nothing is known but that every stored document comes once. *)
Class Driver `{OIM : ObjectIdModel} := {
  ObjectId_str : ObjectId → string;
  ObjectId_of_str : ∀ k, ObjectId_of (ObjectId_str k) = Some k;
  cursor : ∀ {V : Type}, gmap ObjectId V → list (ObjectId * V);
  cursor_perm : ∀ (V : Type) (m : gmap ObjectId V), cursor m ≡ₚ map_to_list m
}.

(** ** Request and response bodies *)

Record RegisterRequest := {
  register_email : string;
  register_password : string
}.

Record LoginRequest := {
  login_email : string;
  login_password : string
}.

Record AuthResponse := {
  user_id : string;
  auth_email : string
}.

Record ProfileUpdate := {
  profile_name : string;
  profile_age : option Z;
  profile_city : option string;
  profile_teach_skills : list string;
  profile_learn_skills : list string;
  profile_availability : list AvailabilitySlot
}.

Record ScheduleRequest := {
  schedule_chat_id : string;
  schedule_teacher_id : string;
  schedule_learner_id : string;
  schedule_duration : Z;
  schedule_scheduled_time : string;
  schedule_meet_link : option string;
  schedule_zoom_link : option string
}.

Record EnsureChatRequest := {
  user_a : string;
  user_b : string
}.

Record SendMessageRequest := {
  send_chat_id : string;
  send_sender_id : string;
  send_text : string
}.

(** The [Chat] and [Message] documents of [src/schemas.py]. *)
Record Chat := {
  members : list string;
  chat_created_at : option Z;
  chat_updated_at : option Z
}.

Record Message := {
  message_chat_id : string;
  message_sender_id : string;
  message_text : string;
  message_created_at : option Z
}.

(** One entry of the [matches] list of [find_matches]. *)
Record Match := {
  match_user_id : string;
  match_name : string;
  match_city : option string;
  match_age : option Z;
  match_teach_skills : list string;
  match_learn_skills : list string;
  match_for_me : list string;
  match_for_them : list string;
  match_rating_avg : float
}.

(** [f"mvp::{password}"] *)
Definition mvp_hash (password : string) : string := "mvp::" +:+ password.

(** The document [register] builds. *)
Definition new_user (req : RegisterRequest) (now1 now2 : Z) : User :=
  {| email := register_email req;
     password_hash := mvp_hash (register_password req);
     name := ""; age := None; city := None;
     teach_skills := []; learn_skills := []; availability := [];
     coins := 20; rating_avg := 0%float; rating_count := 0; badges := [];
     teaching_sessions := 0; learning_sessions := 0;
     user_created_at := Some now1; user_updated_at := Some now2 |}.

(** The [$set] of [update_profile]. *)
Definition set_profile (body : ProfileUpdate) (now : Z) (u : User) : User :=
  {| email := email u; password_hash := password_hash u;
     name := profile_name body; age := profile_age body;
     city := profile_city body;
     teach_skills := profile_teach_skills body;
     learn_skills := profile_learn_skills body;
     availability := profile_availability body;
     coins := coins u; rating_avg := rating_avg u;
     rating_count := rating_count u; badges := badges u;
     teaching_sessions := teaching_sessions u;
     learning_sessions := learning_sessions u;
     user_created_at := user_created_at u;
     user_updated_at := Some now |}.

(** The document [schedule_session] builds; [status] takes the default of
    the schema. *)
Definition new_session (req : ScheduleRequest) (now1 now2 : Z) : Session :=
  {| chat_id := schedule_chat_id req;
     teacher_id := schedule_teacher_id req;
     learner_id := schedule_learner_id req;
     duration := schedule_duration req;
     scheduled_time := schedule_scheduled_time req;
     status := scheduled;
     meet_link := schedule_meet_link req;
     zoom_link := schedule_zoom_link req;
     created_at := Some now1; updated_at := Some now2 |}.

(** Order of two stored timestamps: a missing one sorts first, as [null]
    does in the store. *)
Definition time_le (a b : option Z) : Prop :=
  match a, b with
  | None, _ => True
  | Some _, None => False
  | Some x, Some y => x <= y
  end.

Global Instance time_le_dec a b : Decision (time_le a b).
Proof. destruct a, b; simpl; apply _. Defined.

Section Handlers.
Context `{DRV : Driver}.

Notation "x <- m ;; k" := (bind m (fun x => k))
  (at level 100, m at next level, right associativity).

(** A handler behind its [if db is None] guard. *)
Definition with_db {A} (db : option Store) (m : M A)
    : option Store * (Error + A) :=
  match db with
  | None => (None, inl (HTTPException 500 "Database not configured"))
  | Some st => let '(st', r) := m st in (Some st', r)
  end.

(** [db["user"].find_one(filter)] for a filter [p] on the fields: the first
    matching document the cursor yields. *)
Definition find_one_user_where (p : User → bool) : M (option (ObjectId * User)) :=
  fun st => (st, inr (head (filter (λ kv, p kv.2) (cursor (user st))))).

(** [db["user"].insert_one(doc).inserted_id], where [inserted_id] is the
    fresh id the driver gives the document. *)
Definition insert_one_user (inserted_id : ObjectId) (doc : User) : M ObjectId :=
  fun st =>
    ({| user := <[inserted_id := doc]> (user st); session := session st;
        rating := rating st |}, inr inserted_id).

Definition insert_one_session (inserted_id : ObjectId) (doc : Session)
    : M ObjectId :=
  fun st =>
    ({| user := user st; session := <[inserted_id := doc]> (session st);
        rating := rating st |}, inr inserted_id).

(** [db["user"].update_one({"_id": k}, upd).matched_count] *)
Definition update_one_user_matched (k : ObjectId) (upd : User → User) : M Z :=
  fun st =>
    ({| user := alter upd k (user st); session := session st;
        rating := rating st |},
     inr (match user st !! k with Some _ => 1 | None => 0 end)).

(** [register] *)
Definition register (db : option Store) (req : RegisterRequest)
    (now1 now2 : Z) (inserted_id : ObjectId)
    : option Store * (Error + AuthResponse) :=
  with_db db (
    existing <- find_one_user_where
                  (λ u, bool_decide (email u = register_email req)) ;;
    match existing with
    | Some _ => raise (HTTPException 409 "Email already registered")
    | None =>
        inserted <- insert_one_user inserted_id (new_user req now1 now2) ;;
        ret {| user_id := ObjectId_str inserted;
               auth_email := register_email req |}
    end).

(** [login] *)
Definition login (db : option Store) (req : LoginRequest)
    : option Store * (Error + AuthResponse) :=
  with_db db (
    found <- find_one_user_where
               (λ u, bool_decide (email u = login_email req)) ;;
    match found with
    | None => raise (HTTPException 401 "Invalid credentials")
    | Some (k, u) =>
        if bool_decide (password_hash u ≠ mvp_hash (login_password req))
        then raise (HTTPException 401 "Invalid credentials")
        else ret {| user_id := ObjectId_str k; auth_email := login_email req |}
    end).

(** [update_profile]. The document is read back after the update has
    matched it; were it missing, [doc["_id"]] would raise and the request
    would be answered with status 500. *)
Definition update_profile (db : option Store) (user_id : string)
    (body : ProfileUpdate) (now : Z)
    : option Store * (Error + string * User) :=
  with_db db (
    k <- oid user_id ;;
    matched_count <- update_one_user_matched k (set_profile body now) ;;
    if matched_count =? 0 then raise (HTTPException 404 "User not found")
    else
      k' <- oid user_id ;;
      doc <- find_one_user k' ;;
      match doc with
      | Some (doc_id, doc) => ret (ObjectId_str doc_id, doc)
      | None => raise (HTTPException 500 "Internal Server Error")
      end).

(** [get_profile] *)
Definition get_profile (db : option Store) (user_id : string)
    : option Store * (Error + string * User) :=
  with_db db (
    k <- oid user_id ;;
    doc <- find_one_user k ;;
    match doc with
    | None => raise (HTTPException 404 "User not found")
    | Some (doc_id, doc) => ret (ObjectId_str doc_id, doc)
    end).

(** The loop body of [find_matches] for one candidate [c]. *)
Definition match_entry (teach learn : gset string) (c : ObjectId * User)
    : option Match :=
  let c_teach : gset string := list_to_set (teach_skills c.2) in
  let c_learn : gset string := list_to_set (learn_skills c.2) in
  if bool_decide (learn ∩ c_teach ≠ ∅) && bool_decide (teach ∩ c_learn ≠ ∅)
  then Some {| match_user_id := ObjectId_str c.1;
               match_name := name c.2;
               match_city := city c.2;
               match_age := age c.2;
               match_teach_skills := elements c_teach;
               match_learn_skills := elements c_learn;
               match_for_me := elements (learn ∩ c_teach);
               match_for_them := elements (teach ∩ c_learn);
               match_rating_avg := rating_avg c.2 |}
  else None.

(** [find_matches] *)
Definition find_matches (db : option Store) (user_id : string)
    : option Store * (Error + list Match) :=
  with_db db (
    k <- oid user_id ;;
    me <- find_one_user k ;;
    match me with
    | None => raise (HTTPException 404 "User not found")
    | Some (_, me) =>
        let teach : gset string := list_to_set (teach_skills me) in
        let learn : gset string := list_to_set (learn_skills me) in
        k' <- oid user_id ;;
        candidates <- (fun st =>
          (st, inr (filter (λ c, c.1 ≠ k') (cursor (user st))))) ;;
        ret (omap (match_entry teach learn) candidates)
    end).

(** [schedule_session] *)
Definition schedule_session (db : option Store) (req : ScheduleRequest)
    (now1 now2 : Z) (inserted_id : ObjectId)
    : option Store * (Error + string) :=
  with_db db (
    if negb ((schedule_duration req =? 30) || (schedule_duration req =? 60))
    then raise (HTTPException 400 "Invalid duration")
    else
      sid <- insert_one_session inserted_id (new_session req now1 now2) ;;
      ret (ObjectId_str sid)).

(** [.sort("created_at", -1)]: newest first; the order among equal
    timestamps is as the sort leaves it. *)
Definition newer_first (x y : ObjectId * Session) : Prop :=
  time_le (created_at y.2) (created_at x.2).

Global Instance newer_first_dec x y : Decision (newer_first x y).
Proof. unfold newer_first. apply _. Defined.

(** [list_sessions] *)
Definition list_sessions (db : option Store) (user_id : string)
    : option Store * (Error + list (string * Session)) :=
  with_db db (fun st =>
    let sessions :=
      merge_sort newer_first
        (filter (λ c, bool_decide (teacher_id c.2 = user_id)
                      || bool_decide (learner_id c.2 = user_id))
                (cursor (session st))) in
    (st, inr (prod_map ObjectId_str id <$> sessions))).

(** [.sort("teaching_sessions", -1)] *)
Definition more_taught (x y : ObjectId * User) : Prop :=
  teaching_sessions y.2 <= teaching_sessions x.2.

Global Instance more_taught_dec x y : Decision (more_taught x y).
Proof. unfold more_taught. apply _. Defined.

(** [leaderboard] *)
Definition leaderboard (db : option Store)
    : option Store * (Error + list (string * User)) :=
  with_db db (fun st =>
    let top := take 20 (merge_sort more_taught (cursor (user st))) in
    (st, inr (prod_map ObjectId_str id <$> top))).

(** ** The chat handlers *)

(** The two collections the chat handlers touch. *)
Record ChatStore := {
  chat : gmap ObjectId Chat;
  message : gmap ObjectId Message
}.

(** [sorted([a, b])]: Python compares strings by code point, which is the
    order of their UTF-8 bytes. *)
Definition sorted_pair (a b : string) : list string :=
  if String.ltb b a then [b; a] else [a; b].

(** [{"$set": {"updated_at": now}}] on a chat. *)
Definition touch_chat (now : Z) (c : Chat) : Chat :=
  {| members := members c; chat_created_at := chat_created_at c;
     chat_updated_at := Some now |}.

(** [ensure_chat] *)
Definition ensure_chat (db : option ChatStore) (req : EnsureChatRequest)
    (now1 now2 : Z) (inserted_id : ObjectId)
    : option ChatStore * (Error + string) :=
  match db with
  | None => (None, inl (HTTPException 500 "Database not configured"))
  | Some cs =>
      let members_sorted := sorted_pair (user_a req) (user_b req) in
      let existing :=
        head (filter (λ kv, bool_decide (members kv.2 = members_sorted))
                (cursor (chat cs))) in
      match existing with
      | Some (existing_id, _) => (Some cs, inr (ObjectId_str existing_id))
      | None =>
          let new_chat :=
            {| members := members_sorted; chat_created_at := Some now1;
               chat_updated_at := Some now2 |} in
          (Some {| chat := <[inserted_id := new_chat]> (chat cs);
                   message := message cs |},
           inr (ObjectId_str inserted_id))
      end
  end.

(** [send_message]: the message is inserted first, the chat id is
    converted after. *)
Definition send_message (db : option ChatStore) (req : SendMessageRequest)
    (now1 now2 : Z) (inserted_id : ObjectId)
    : option ChatStore * (Error + Ack) :=
  match db with
  | None => (None, inl (HTTPException 500 "Database not configured"))
  | Some cs =>
      let msg :=
        {| message_chat_id := send_chat_id req;
           message_sender_id := send_sender_id req;
           message_text := send_text req;
           message_created_at := Some now1 |} in
      let cs1 :=
        {| chat := chat cs; message := <[inserted_id := msg]> (message cs) |} in
      match ObjectId_of (send_chat_id req) with
      | None => (Some cs1, inl (HTTPException 400 "Invalid object id"))
      | Some k =>
          (Some {| chat := alter (touch_chat now2) k (chat cs1);
                   message := message cs1 |}, inr Ok)
      end
  end.

(** ** Vocabulary of the statements *)

(** No two stored chats have the same member list. *)
Definition chats_unique (cs : ChatStore) : Prop :=
  ∀ k1 k2 c1 c2,
    chat cs !! k1 = Some c1 → chat cs !! k2 = Some c2 →
    members c1 = members c2 → k1 = k2.

(** Some stored user has the email [e]. *)
Definition email_taken (st : Store) (e : string) : Prop :=
  ∃ k u, user st !! k = Some u ∧ email u = e.

(** No two stored users share an email. *)
Definition emails_unique (st : Store) : Prop :=
  ∀ k1 k2 u1 u2,
    user st !! k1 = Some u1 → user st !! k2 = Some u2 →
    email u1 = email u2 → k1 = k2.

(** The store with one more user. *)
Definition with_user (k : ObjectId) (u : User) (st : Store) : Store :=
  {| user := <[k := u]> (user st); session := session st;
     rating := rating st |}.

(** The store with one more session. *)
Definition with_session (k : ObjectId) (s : Session) (st : Store) : Store :=
  {| user := user st; session := <[k := s]> (session st);
     rating := rating st |}.

(** [a] wants to learn something [b] teaches, and teaches something [b]
    wants to learn. *)
Definition can_exchange (a b : User) : Prop :=
  (∃ skill, skill ∈ learn_skills a ∧ skill ∈ teach_skills b)
  ∧ (∃ skill, skill ∈ teach_skills a ∧ skill ∈ learn_skills b).

(** The user stored under [j] is in the answer [l] of [find_matches]. *)
Definition listed (j : ObjectId) (l : list Match) : Prop :=
  ∃ m, m ∈ l ∧ match_user_id m = ObjectId_str j.

End Handlers.

(** ** A reference instance of the driver, and sample data *)

(** Object ids as the strings [hex24] accepts and returns unchanged: 24
    hexadecimal digits in lower case. [str] is the string itself. *)
Definition canonical_hex (s : string) : Prop := hex24 s = Some s.

Definition hex_object_ids : ObjectIdModel :=
  {| ObjectId := dsig canonical_hex;
     ObjectId_of := λ s,
       match hex24 s with
       | Some s' =>
           match decide (canonical_hex s') with
           | left H => Some (dexist s' H)
           | right _ => None
           end
       | None => None
       end |}.

Lemma hex_object_ids_str (k : @ObjectId hex_object_ids) :
  @ObjectId_of hex_object_ids (`k) = Some k.
Proof.
  destruct k as [s Hs]. simpl.
  pose proof (bool_decide_unpack _ Hs) as Hc. unfold canonical_hex in Hc.
  rewrite Hc. destruct (decide (canonical_hex s)) as [H|H]; [|done].
  f_equal. by apply dsig_eq.
Qed.

Definition hex_driver : Driver (OIM := hex_object_ids) :=
  {| ObjectId_str := λ k : @ObjectId hex_object_ids, `k;
     ObjectId_of_str := hex_object_ids_str;
     cursor := λ V m, map_to_list m;
     cursor_perm := λ V m, reflexivity _ |}.

(** Three ids, two users who can exchange Python for guitar, and a store
    holding those two under the first two ids. *)
Definition key_a : @ObjectId hex_object_ids :=
  dexist "5f00000000000000000000a1" eq_refl.

Definition key_b : @ObjectId hex_object_ids :=
  dexist "5f00000000000000000000b2" eq_refl.

Definition key_c : @ObjectId hex_object_ids :=
  dexist "5f00000000000000000000c3" eq_refl.

Definition skilled (mail pw : string) (teach learn : list string) (ts : Z)
    : User :=
  {| email := mail; password_hash := mvp_hash pw; name := ""; age := None;
     city := None; teach_skills := teach; learn_skills := learn;
     availability := []; coins := 20; rating_avg := 0%float;
     rating_count := 0; badges := []; teaching_sessions := ts;
     learning_sessions := 0; user_created_at := Some 0;
     user_updated_at := Some 0 |}.

Definition alice : User :=
  skilled "alice@x.io" "a-secret" ["python"] ["guitar"; "chess"] 3.

Definition bob : User :=
  skilled "bob@x.io" "b-secret" ["guitar"] ["python"] 7.

Definition store_ab : Store (OIM := hex_object_ids) :=
  {| user := <[key_a := alice]> (<[key_b := bob]> ∅);
     session := ∅; rating := [] |}.

Definition carol_request : RegisterRequest :=
  {| register_email := "carol@x.io"; register_password := "c-secret" |}.

Definition profile0 : ProfileUpdate :=
  {| profile_name := "Alice"; profile_age := Some 7;
     profile_city := Some "Oslo"; profile_teach_skills := ["python"; "go"];
     profile_learn_skills := ["guitar"]; profile_availability := [] |}.

Definition schedule_ab : ScheduleRequest :=
  {| schedule_chat_id := "c"; schedule_teacher_id := `key_a;
     schedule_learner_id := `key_b; schedule_duration := 60;
     schedule_scheduled_time := "2024-01-01T10:00";
     schedule_meet_link := None; schedule_zoom_link := None |}.

Definition schedule_names : ScheduleRequest :=
  {| schedule_chat_id := "c"; schedule_teacher_id := "alice";
     schedule_learner_id := "bob"; schedule_duration := 30;
     schedule_scheduled_time := "2024-01-01T10:00";
     schedule_meet_link := None; schedule_zoom_link := None |}.

Definition rate_c : RatingRequest :=
  {| session_id := `key_c; rater_id := `key_b; ratee_id := `key_a;
     score := 4; feedback := None |}.

Definition chats0 : ChatStore (OIM := hex_object_ids) :=
  {| chat := ∅; message := ∅ |}.

(** A store that already holds the chat of Adam and Zoe. *)
Definition chats_az : ChatStore (OIM := hex_object_ids) :=
  {| chat := <[key_a := {| members := ["adam"; "zoe"];
                           chat_created_at := Some 0;
                           chat_updated_at := Some 0 |}]> ∅;
     message := ∅ |}.

(** * Properties *)

Section Properties.
Context `{OIM : ObjectIdModel}.
Implicit Types (st : Store) (req : RatingRequest) (s : Session).
Implicit Types (k sk rk tk lk : ObjectId) (u : User).

(** ** Running the steps *)

Lemma oid_Some id_str k st :
  ObjectId_of id_str = Some k → oid id_str st = (st, inr k).
Proof. unfold oid. by intros ->. Qed.

Lemma oid_None id_str st :
  ObjectId_of id_str = None →
  oid id_str st = (st, inl (HTTPException 400 "Invalid object id")).
Proof. unfold oid. by intros ->. Qed.

Lemma bind_inr {A B} (m : M A) (f : A → M B) st st' a :
  m st = (st', inr a) → bind m f st = f a st'.
Proof. unfold bind. by intros ->. Qed.

Lemma bind_inl {A B} (m : M A) (f : A → M B) st st' e :
  m st = (st', inl e) → bind m f st = (st', inl e).
Proof. unfold bind. by intros ->. Qed.

Lemma store_eta st :
  {| user := user st; session := session st; rating := rating st |} = st.
Proof. by destruct st. Qed.

Lemma alter_absent {A} (f : A → A) (m : gmap ObjectId A) k :
  m !! k = None → alter f k m = m.
Proof.
  intros Hk. apply map_eq. intros j. rewrite lookup_alter.
  case_decide as Hj; [|done]. subst j. by rewrite Hk.
Qed.

Lemma lookup_alter_at ko f (m : gmap ObjectId User) k :
  alter_at ko f m !! k = at_key ko f k <$> m !! k.
Proof.
  unfold alter_at, at_key. destruct ko as [k0|].
  - rewrite lookup_alter. destruct (decide (k0 = k)) as [->|Hne].
    + destruct (m !! k); simpl; [|done]. by rewrite decide_True.
    + destruct (m !! k); simpl; [|done]. rewrite decide_False; congruence.
  - by destruct (m !! k).
Qed.

Lemma new_avg_mean avg c sc :
  c + 1 ≠ 0 → new_avg avg (c + 1) sc = inr (mean_with avg c sc).
Proof.
  intros Hc. unfold new_avg, mean_with.
  destruct (Z.eqb_spec (c + 1) 0) as [|_]; [done|].
  by replace (c + 1 - 1) with c by lia.
Qed.

(** The ratee block is one update of the ratee's document, and nothing at
    all when there is no such document. *)
Lemma update_ratee_rating_run req rk st :
  ObjectId_of (ratee_id req) = Some rk →
  ratee_count_ok st rk = true →
  update_ratee_rating req st =
    ({| user := alter (rate_user (score req)) rk (user st);
        session := session st; rating := rating st |}, inr tt).
Proof.
  intros Hrk Hc.
  unfold update_ratee_rating, ratee_count_ok, ratee_count_room in *.
  rewrite (bind_inr _ _ _ _ _ (oid_Some _ _ _ Hrk)).
  unfold bind at 1, find_one_user at 1.
  destruct (user st !! rk) as [u|] eqn:Hu; simpl.
  - apply andb_true_iff in Hc as [Hc _]. apply Z.leb_le in Hc.
    unfold bind at 1, lift. rewrite new_avg_mean by lia.
    rewrite (bind_inr _ _ _ _ _ (oid_Some _ _ _ Hrk)).
    unfold update_one_user. do 2 f_equal.
    apply alter_ext. intros u' Hu'. by simplify_eq.
  - unfold ret. rewrite alter_absent by done. by rewrite store_eta.
Qed.

Lemma coins_logic_run s st :
  participants_ok s = true →
  coins_logic s st =
    ({| user := alter_at (coin_learner s) (inc_counters (-10) 0 1)
                  (alter_at (coin_teacher s) (inc_counters 10 1 0) (user st));
        session := session st; rating := rating st |}, inr tt).
Proof.
  unfold participants_ok, coins_logic, coin_learner, coin_teacher, paid.
  destruct (truthy (teacher_id s)); simpl;
    [destruct (truthy (learner_id s)); simpl|].
  - rewrite andb_true_iff, !bool_decide_eq_true.
    intros [[tk Htk] [lk Hlk]]. rewrite Htk, Hlk.
    rewrite (bind_inr _ _ _ _ _ (oid_Some _ _ _ Htk)).
    unfold bind at 1, update_one_user at 1.
    by rewrite (bind_inr _ _ _ _ _ (oid_Some _ _ _ Hlk)).
  - intros _. unfold ret. by rewrite store_eta.
  - intros _. unfold ret. by rewrite store_eta.
Qed.

Lemma mark_session_completed_run req now sk st :
  ObjectId_of (session_id req) = Some sk →
  mark_session_completed req now st =
    ({| user := user st; session := alter (complete now) sk (session st);
        rating := rating st |}, inr tt).
Proof.
  intros Hsk. unfold mark_session_completed.
  by rewrite (bind_inr _ _ _ _ _ (oid_Some _ _ _ Hsk)).
Qed.

Lemma badges_block_run s st :
  participants_ok s = true →
  badges_block s st =
    ({| user := alter_at (badge_teacher s) rebadge (user st);
        session := session st; rating := rating st |}, inr tt).
Proof.
  unfold participants_ok, badges_block, badge_teacher.
  destruct (truthy (teacher_id s)); simpl.
  - rewrite andb_true_iff, bool_decide_eq_true.
    intros [[tk Htk] _]. rewrite Htk.
    unfold bind at 1. rewrite (bind_inr _ _ _ _ _ (oid_Some _ _ _ Htk)).
    unfold find_one_user. destruct (user st !! tk) as [t|] eqn:Ht; simpl.
    + unfold update_one_user. do 2 f_equal.
      apply alter_ext. intros t' Ht'. by simplify_eq.
    + unfold ret. rewrite alter_absent by done. by rewrite store_eta.
  - intros _. unfold bind, ret. by rewrite store_eta.
Qed.

(** The store a settlement call leaves, in closed form. *)
Lemma rate_session_body_settles st req now1 now2 sk s rk :
  settlement_call st req sk s rk →
  rate_session_body req now1 now2 st =
    ({| user :=
          alter_at (badge_teacher s) rebadge
            (alter_at (coin_learner s) (inc_counters (-10) 0 1)
               (alter_at (coin_teacher s) (inc_counters 10 1 0)
                  (alter (rate_user (score req)) rk (user st))));
        session := alter (complete now2) sk (session st);
        rating := rating_of req now1 :: rating st |}, inr Ok).
Proof.
  intros [Hscore Hsk Hs Hrk Hc Hp]. unfold rate_session_body.
  replace ((1 <=? score req) && (score req <=? 5)) with true
    by (symmetry; apply andb_true_iff; split; apply Z.leb_le; lia).
  simpl. rewrite (bind_inr _ _ _ _ _ (oid_Some _ _ _ Hsk)).
  unfold bind at 1, find_one_session at 1. rewrite Hs. simpl.
  unfold bind at 1, insert_one_rating at 1.
  erewrite bind_inr; [|by apply update_ratee_rating_run].
  erewrite bind_inr; [|by apply coins_logic_run].
  erewrite bind_inr; [|by apply mark_session_completed_run].
  erewrite bind_inr; [|by apply badges_block_run].
  reflexivity.
Qed.
(** ** What a settlement call does to one document *)

Lemma settlement_outcome st req now1 now2 sk s rk :
  settlement_call st req sk s rk →
  ∃ st', rate_session (Some st) req now1 now2 = (Some st', inr Ok)
    ∧ (∀ k, user st' !! k = settled_user req s k <$> user st !! k)
    ∧ session st' = alter (complete now2) sk (session st)
    ∧ rating st' = rating_of req now1 :: rating st.
Proof.
  intros Hcall. eexists. unfold rate_session.
  rewrite (rate_session_body_settles _ _ now1 now2 _ _ _ Hcall).
  split; [reflexivity|]. simpl. split; [|done].
  intros k. rewrite !lookup_alter_at.
  destruct Hcall as [_ _ _ Hrk _ _]. unfold settled_user. rewrite Hrk.
  change (alter (rate_user (score req)) rk (user st))
    with (alter_at (Some rk) (rate_user (score req)) (user st)).
  rewrite lookup_alter_at. by destruct (user st !! k).
Qed.

Lemma settled_user_counters req s tk lk k u :
  paid s = true →
  ObjectId_of (teacher_id s) = Some tk →
  ObjectId_of (learner_id s) = Some lk →
  coins (settled_user req s k u) = coins u + coin_delta tk lk k
  ∧ teaching_sessions (settled_user req s k u)
      = teaching_sessions u + taught_delta tk k
  ∧ learning_sessions (settled_user req s k u)
      = learning_sessions u + learned_delta lk k.
Proof.
  intros Hp Htk Hlk.
  unfold settled_user, at_key, badge_teacher, coin_teacher, coin_learner,
    coin_delta, taught_delta, learned_delta.
  rewrite Hp, Htk, Hlk.
  repeat case_decide; simplify_eq; simpl; repeat split; try lia; congruence.
Qed.

Lemma settled_user_teaching req s tk u :
  truthy (teacher_id s) = true →
  ObjectId_of (teacher_id s) = Some tk →
  teaching_sessions (settled_user req s tk u)
    = teaching_sessions u + (if paid s then 1 else 0).
Proof.
  intros Ht Htk.
  unfold settled_user, at_key, badge_teacher, coin_teacher, coin_learner.
  rewrite Ht, Htk. destruct (paid s);
    repeat case_decide; simplify_eq; simpl; lia.
Qed.

Lemma settled_user_rating req s rk u :
  ObjectId_of (ratee_id req) = Some rk →
  rating_count (settled_user req s rk u) = rating_count u + 1
  ∧ rating_avg (settled_user req s rk u)
      = mean_with (rating_avg u) (rating_count u) (score req).
Proof.
  intros Hrk. unfold settled_user, at_key. rewrite Hrk.
  repeat case_decide; simplify_eq; simpl; done.
Qed.

Lemma settled_user_rating_other req s k u :
  ObjectId_of (ratee_id req) ≠ Some k →
  rating_count (settled_user req s k u) = rating_count u
  ∧ rating_avg (settled_user req s k u) = rating_avg u.
Proof.
  intros Hrk. unfold settled_user, at_key.
  repeat case_decide; simplify_eq; simpl; done.
Qed.

Lemma elem_of_rebadge u b :
  b ∈ badges (rebadge u) ↔ b ∈ badges u ∨ qualifies (rebadge u) b.
Proof.
  unfold rebadge, recompute_badges, badge_set, qualifies. simpl.
  rewrite elem_of_elements.
  destruct (Z.leb_spec 10 (teaching_sessions u));
    destruct (Z.leb_spec 5 (learning_sessions u + teaching_sessions u));
    destruct (PrimFloat.ltb 4.5 (rating_avg u));
    rewrite ?elem_of_union, ?elem_of_singleton, elem_of_list_to_set;
    intuition (try lia; try discriminate).
Qed.

Lemma settled_user_badges req s tk u b :
  badge_teacher s = Some tk →
  b ∈ badges (settled_user req s tk u)
  ↔ b ∈ badges u ∨ qualifies (settled_user req s tk u) b.
Proof.
  intros Ht. unfold settled_user. rewrite Ht.
  unfold at_key at 1. rewrite decide_True by done.
  rewrite elem_of_rebadge.
  unfold at_key. repeat case_decide; simpl; done.
Qed.

Lemma settled_user_badges_other req s k u :
  badge_teacher s ≠ Some k → badges (settled_user req s k u) = badges u.
Proof.
  intros Ht. unfold settled_user.
  unfold at_key at 1. rewrite decide_False by done.
  unfold at_key. repeat case_decide; simpl; done.
Qed.

Lemma settlement_coins st st' req s :
  (∀ k, user st' !! k = settled_user req s k <$> user st !! k) →
  coins_settled s st st'.
Proof.
  intros Hu tk lk Hp Htk Hlk k u Hk. rewrite Hu, Hk. simpl.
  eexists. split; [done|]. by apply settled_user_counters.
Qed.

Lemma settlement_badges st st' req s :
  (∀ k, user st' !! k = settled_user req s k <$> user st !! k) →
  badges_recomputed s st st'.
Proof.
  intros Hu. split.
  - intros tk t0 Ht Htk Ht0. rewrite Hu, Ht0. simpl.
    eexists. split; [done|]. split.
    + by apply settled_user_teaching.
    + intros b. apply settled_user_badges. unfold badge_teacher. by rewrite Ht.
  - intros k Hk. rewrite Hu. destruct (user st !! k) as [u|]; simpl; [|done].
    by rewrite settled_user_badges_other.
Qed.

Lemma settlement_session st' now2 sk s (m : gmap ObjectId Session) :
  m !! sk = Some s →
  session st' = alter (complete now2) sk m →
  session_completed sk now2 st'.
Proof.
  intros Hs Hst'. exists (complete now2 s).
  by rewrite Hst', lookup_alter_eq, Hs.
Qed.

(** A settlement call leaves a store in which the same request is again a
    settlement call. *)
Lemma settlement_call_again st st' req now2 sk s rk :
  settlement_call st req sk s rk →
  ratee_count_room 2 st rk = true →
  (∀ k, user st' !! k = settled_user req s k <$> user st !! k) →
  session st' = alter (complete now2) sk (session st) →
  settlement_call st' req sk (complete now2 s) rk.
Proof.
  intros [Hscore Hsk Hs Hrk _ Hp] Hc Hu Hsess. split; try done.
  - by rewrite Hsess, lookup_alter_eq, Hs.
  - unfold ratee_count_ok, ratee_count_room in *. rewrite Hu.
    destruct (user st !! rk) as [u|]; simpl; [|done].
    destruct (settled_user_rating req s rk u Hrk) as [-> _].
    apply andb_true_iff in Hc as [Hc1 Hc2].
    apply Z.leb_le in Hc1. apply Z.ltb_lt in Hc2.
    apply andb_true_iff. split; [apply Z.leb_le|apply Z.ltb_lt]; lia.
Qed.

(** ** The claims about settlement calls *)

(** C2, as amended: in a settlement call on a session with both participant
    ids populated and naming two different users, the teacher's document, if
    stored, gains 10 coins and one teaching session, and the learner's, if
    stored, loses 10 coins (whatever the balance) and gains one learning
    session; an absent document stays absent while the other increment is
    applied. When both ids name the same user, both increments land on that
    one document. *)
Theorem C2_coin_transfer st req now1 now2 sk s rk tk lk :
  settlement_call st req sk s rk →
  paid s = true →
  ObjectId_of (teacher_id s) = Some tk →
  ObjectId_of (learner_id s) = Some lk →
  ∃ st', rate_session (Some st) req now1 now2 = (Some st', inr Ok)
    ∧ (tk ≠ lk →
         (∀ t0, user st !! tk = Some t0 →
            ∃ t', user st' !! tk = Some t'
              ∧ coins t' = coins t0 + 10
              ∧ teaching_sessions t' = teaching_sessions t0 + 1)
         ∧ (∀ l0, user st !! lk = Some l0 →
              ∃ l', user st' !! lk = Some l'
                ∧ coins l' = coins l0 - 10
                ∧ learning_sessions l' = learning_sessions l0 + 1)
         ∧ (user st !! tk = None → user st' !! tk = None)
         ∧ (user st !! lk = None → user st' !! lk = None))
    ∧ (tk = lk →
         ∀ t0, user st !! tk = Some t0 →
           ∃ t', user st' !! tk = Some t'
             ∧ coins t' = coins t0
             ∧ teaching_sessions t' = teaching_sessions t0 + 1
             ∧ learning_sessions t' = learning_sessions t0 + 1).
Proof.
  intros Hcall Hp Htk Hlk.
  destruct (settlement_outcome st req now1 now2 sk s rk Hcall)
    as (st' & Hrun & Hu & _ & _).
  exists st'. split; [done|].
  pose proof (settlement_coins st st' req s Hu tk lk Hp Htk Hlk) as Hcoins.
  unfold coin_delta, taught_delta, learned_delta in Hcoins.
  split; [intros Hne; repeat split|intros <-].
  - intros t0 Ht0. destruct (Hcoins tk t0 Ht0) as (t' & Ht' & Hc & Hts & _).
    exists t'. split; [done|]. repeat case_decide; try congruence; lia.
  - intros l0 Hl0. destruct (Hcoins lk l0 Hl0) as (l' & Hl' & Hc & _ & Hls).
    exists l'. split; [done|]. repeat case_decide; try congruence; lia.
  - intros Hnone. by rewrite Hu, Hnone.
  - intros Hnone. by rewrite Hu, Hnone.
  - intros t0 Ht0. destruct (Hcoins tk t0 Ht0) as (t' & Ht' & Hc & Hts & Hls).
    exists t'. split; [done|]. repeat case_decide; try congruence; lia.
Qed.

(** C3: at the end of a settlement call the teacher's document, if stored,
    carries exactly its former badges together with the labels it qualifies
    for — "Top Mentor" from 10 teaching sessions, "Skill Streak" from 5
    sessions of both kinds, "Helpful Teacher" above an average of 4.5 —
    judged on the document as re-loaded after the coin block; the badges of
    every other document, the learner's among them, are as before. *)
Theorem C3_teacher_badges st req now1 now2 sk s rk :
  settlement_call st req sk s rk →
  ∃ st', rate_session (Some st) req now1 now2 = (Some st', inr Ok)
    ∧ badges_recomputed s st st'.
Proof.
  intros Hcall.
  destruct (settlement_outcome st req now1 now2 sk s rk Hcall)
    as (st' & Hrun & Hu & _ & _).
  exists st'. split; [done|]. by eapply settlement_badges.
Qed.

(** C4: a settlement call marks its session completed and stamps
    [updated_at], whatever the status was; the same request sent again
    succeeds again, stamps again, inserts a second Rating and applies the
    coin, counter and rating-average updates a second time. The ratee's
    count is taken to leave room for both ratings. *)
Theorem C4_completed_and_repeatable st req now1 now2 now3 now4 sk s rk :
  settlement_call st req sk s rk →
  ratee_count_room 2 st rk = true →
  ∃ st1 st2,
    rate_session (Some st) req now1 now2 = (Some st1, inr Ok)
    ∧ session_completed sk now2 st1
    ∧ rate_session (Some st1) req now3 now4 = (Some st2, inr Ok)
    ∧ session_completed sk now4 st2
    ∧ rating st2 = rating_of req now3 :: rating_of req now1 :: rating st
    ∧ coins_settled s st st1
    ∧ coins_settled s st1 st2
    ∧ (∀ u0, user st !! rk = Some u0 →
         ∃ u1 u2, user st1 !! rk = Some u1 ∧ user st2 !! rk = Some u2
           ∧ rating_count u1 = rating_count u0 + 1
           ∧ rating_avg u1 =
               mean_with (rating_avg u0) (rating_count u0) (score req)
           ∧ rating_count u2 = rating_count u1 + 1
           ∧ rating_avg u2 =
               mean_with (rating_avg u1) (rating_count u1) (score req)).
Proof.
  intros Hcall Hroom.
  destruct (settlement_outcome st req now1 now2 sk s rk Hcall)
    as (st1 & Hrun1 & Hu1 & Hs1 & Hr1).
  pose proof (settlement_call_again _ _ _ _ _ _ _ Hcall Hroom Hu1 Hs1)
    as Hcall1.
  destruct (settlement_outcome st1 req now3 now4 sk _ rk Hcall1)
    as (st2 & Hrun2 & Hu2 & Hs2 & Hr2).
  exists st1, st2. destruct Hcall as [_ _ Hs Hrk _ _].
  destruct Hcall1 as [_ _ Hs' _ _ _].
  repeat split; try done.
  - exact (settlement_session _ _ _ _ _ Hs Hs1).
  - exact (settlement_session _ _ _ _ _ Hs' Hs2).
  - by rewrite Hr2, Hr1.
  - by eapply settlement_coins.
  - by eapply (settlement_coins st1 st2 req (complete now2 s)).
  - intros u0 Hu0. do 2 eexists.
    rewrite Hu2, Hu1, Hu0. simpl. split; [done|]. split; [done|].
    destruct (settled_user_rating req s rk u0 Hrk) as [-> ->].
    destruct (settled_user_rating req (complete now2 s) rk
                (settled_user req s rk u0) Hrk) as [-> ->].
    destruct (settled_user_rating req s rk u0 Hrk) as [-> ->].
    done.
Qed.

(** C8: in a settlement call whose ratee has no stored document nothing is
    raised and no rating field of any user changes, while the Rating is
    inserted, the coin block runs, the session is completed, the teacher's
    badges are recomputed, and the call returns success. *)
Theorem C8_absent_ratee st req now1 now2 sk s rk :
  settlement_call st req sk s rk →
  user st !! rk = None →
  ∃ st', rate_session (Some st) req now1 now2 = (Some st', inr Ok)
    ∧ user st' !! rk = None
    ∧ (∀ k, rating_count <$> user st' !! k = rating_count <$> user st !! k
            ∧ rating_avg <$> user st' !! k = rating_avg <$> user st !! k)
    ∧ rating st' = rating_of req now1 :: rating st
    ∧ coins_settled s st st'
    ∧ session_completed sk now2 st'
    ∧ badges_recomputed s st st'.
Proof.
  intros Hcall Hnone.
  destruct (settlement_outcome st req now1 now2 sk s rk Hcall)
    as (st' & Hrun & Hu & Hs & Hr).
  exists st'. destruct Hcall as [_ _ Hsess Hrk _ _].
  repeat split; try done.
  - by rewrite Hu, Hnone.
  - rewrite Hu. destruct (user st !! k) as [u|] eqn:Hk; simpl; [|done].
    assert (ObjectId_of (ratee_id req) ≠ Some k) as Hne
      by (rewrite Hrk; intros [= ->]; congruence).
    by destruct (settled_user_rating_other req s k u Hne) as [-> _].
  - rewrite Hu. destruct (user st !! k) as [u|] eqn:Hk; simpl; [|done].
    assert (ObjectId_of (ratee_id req) ≠ Some k) as Hne
      by (rewrite Hrk; intros [= ->]; congruence).
    by destruct (settled_user_rating_other req s k u Hne) as [_ ->].
  - by eapply settlement_coins.
  - exact (settlement_session _ _ _ _ _ Hsess Hs).
  - by destruct (settlement_badges st st' req s Hu).
  - by destruct (settlement_badges st st' req s Hu).
Qed.

(** C10, as amended: a call with a score in range, a well-formed ratee id
    and an existing session whose participant ids are well-formed succeeds
    whoever the rater and the ratee are — [rater_id] is not even parsed, and
    neither is compared with the session's participants: the Rating is
    inserted, the ratee's average is updated, and the coin and counter
    deltas go to the session's own teacher and learner. *)
Theorem C10_no_participant_check st req now1 now2 sk s rk :
  settlement_call st req sk s rk →
  ∃ st', rate_session (Some st) req now1 now2 = (Some st', inr Ok)
    ∧ rating st' = rating_of req now1 :: rating st
    ∧ (∀ u, user st !! rk = Some u →
         ∃ u', user st' !! rk = Some u'
           ∧ rating_count u' = rating_count u + 1
           ∧ rating_avg u' =
               mean_with (rating_avg u) (rating_count u) (score req))
    ∧ coins_settled s st st'.
Proof.
  intros Hcall.
  destruct (settlement_outcome st req now1 now2 sk s rk Hcall)
    as (st' & Hrun & Hu & _ & Hr).
  exists st'. destruct Hcall as [_ _ _ Hrk _ _].
  repeat split; try done.
  - intros u Hk. rewrite Hu, Hk. simpl. eexists. split; [done|].
    by apply settled_user_rating.
  - by eapply settlement_coins.
Qed.

(** ** What every step keeps, whether the call succeeds or not *)

Section Frame.
Variable rel : User → User → Prop.
Hypothesis rel_refl : ∀ u, rel u u.
Hypothesis rel_trans : ∀ u v w, rel u v → rel v w → rel u w.

Lemma users_rel_refl st : users_rel rel st st.
Proof. intros k u Hk. eauto. Qed.

Lemma users_rel_trans st1 st2 st3 :
  users_rel rel st1 st2 → users_rel rel st2 st3 → users_rel rel st1 st3.
Proof.
  intros H12 H23 k u Hk.
  destruct (H12 k u Hk) as (v & Hv & Huv).
  destruct (H23 k v Hv) as (w & Hw & Hvw). eauto.
Qed.

Lemma users_rel_same_users st st' :
  user st' = user st → users_rel rel st st'.
Proof. intros Heq k u Hk. rewrite Heq. eauto. Qed.

Lemma keeps_ret {A} (a : A) : keeps rel (ret a).
Proof. intros st. apply users_rel_refl. Qed.

Lemma keeps_raise {A} e : keeps rel (raise (A:=A) e).
Proof. intros st. apply users_rel_refl. Qed.

Lemma keeps_lift {A} (r : Error + A) : keeps rel (lift r).
Proof. intros st. apply users_rel_refl. Qed.

Lemma keeps_oid id_str : keeps rel (oid id_str).
Proof. unfold oid. destruct (ObjectId_of id_str); [apply keeps_ret|apply keeps_raise]. Qed.

Lemma keeps_find_one_user k : keeps rel (find_one_user k).
Proof. intros st. apply users_rel_refl. Qed.

Lemma keeps_find_one_session k : keeps rel (find_one_session k).
Proof. intros st. apply users_rel_refl. Qed.

Lemma keeps_insert_one_rating r : keeps rel (insert_one_rating r).
Proof. intros st. by apply users_rel_same_users. Qed.

Lemma keeps_update_one_session k upd : keeps rel (update_one_session k upd).
Proof. intros st. by apply users_rel_same_users. Qed.

Lemma users_rel_alter st k upd :
  (∀ u, user st !! k = Some u → rel u (upd u)) →
  users_rel rel st (update_one_user k upd st).1.
Proof.
  intros Hupd j u Hj. simpl. rewrite lookup_alter.
  case_decide as Hkj.
  - subst j. rewrite Hj. simpl. eauto.
  - eauto.
Qed.

Lemma keeps_update_one_user k upd :
  (∀ u, rel u (upd u)) → keeps rel (update_one_user k upd).
Proof. intros Hupd st. apply users_rel_alter. auto. Qed.

Lemma keeps_bind {A B} (m : M A) (f : A → M B) :
  keeps rel m → (∀ a, keeps rel (f a)) → keeps rel (bind m f).
Proof.
  intros Hm Hf st. unfold bind. specialize (Hm st).
  destruct (m st) as [st' [e|a]]; simpl in *; [done|].
  eapply users_rel_trans; [done|]. apply Hf.
Qed.

Lemma keeps_update_ratee_rating req :
  (∀ a c u, rel u (set_rating a c u)) → keeps rel (update_ratee_rating req).
Proof.
  intros Hset. unfold update_ratee_rating.
  apply keeps_bind; [apply keeps_oid|]. intros k.
  apply keeps_bind; [apply keeps_find_one_user|]. intros [[_ u]|];
    [|apply keeps_ret].
  apply keeps_bind; [apply keeps_lift|]. intros new.
  apply keeps_bind; [apply keeps_oid|]. intros k'.
  by apply keeps_update_one_user.
Qed.

Lemma keeps_coins_logic s :
  (∀ dc dt dl u, rel u (inc_counters dc dt dl u)) → keeps rel (coins_logic s).
Proof.
  intros Hinc. unfold coins_logic.
  destruct (truthy (teacher_id s) && truthy (learner_id s)); [|apply keeps_ret].
  apply keeps_bind; [apply keeps_oid|]. intros tk.
  apply keeps_bind; [by apply keeps_update_one_user|]. intros _.
  apply keeps_bind; [apply keeps_oid|]. intros lk.
  by apply keeps_update_one_user.
Qed.

Lemma keeps_mark_session_completed req now :
  keeps rel (mark_session_completed req now).
Proof.
  unfold mark_session_completed.
  apply keeps_bind; [apply keeps_oid|]. intros k.
  apply keeps_update_one_session.
Qed.

(** The badge block writes back what it computed from the document it has
    just read under the same key. *)
Lemma keeps_badges_block s :
  (∀ u, rel u (rebadge u)) → keeps rel (badges_block s).
Proof.
  intros Hre st. unfold badges_block, bind.
  destruct (truthy (teacher_id s)); [|apply users_rel_refl].
  unfold oid. destruct (ObjectId_of (teacher_id s)) as [tk|];
    [|apply users_rel_refl].
  unfold ret, find_one_user.
  destruct (user st !! tk) as [t|] eqn:Ht; simpl; [|apply users_rel_refl].
  apply users_rel_alter. intros u Hu. simplify_eq. apply Hre.
Qed.

(** The blocks that follow the ratee update. *)
Lemma keeps_after_ratee req s now2 :
  (∀ dc dt dl u, rel u (inc_counters dc dt dl u)) →
  (∀ u, rel u (rebadge u)) →
  keeps rel (bind (coins_logic s) (λ _,
             bind (mark_session_completed req now2) (λ _,
             bind (badges_block s) (λ _, ret Ok)))).
Proof.
  intros Hinc Hre.
  apply keeps_bind; [by apply keeps_coins_logic|]. intros _.
  apply keeps_bind; [apply keeps_mark_session_completed|]. intros _.
  apply keeps_bind; [by apply keeps_badges_block|]. intros _.
  apply keeps_ret.
Qed.

Lemma keeps_rate_session_body req now1 now2 :
  (∀ a c u, rel u (set_rating a c u)) →
  (∀ dc dt dl u, rel u (inc_counters dc dt dl u)) →
  (∀ u, rel u (rebadge u)) →
  keeps rel (rate_session_body req now1 now2).
Proof.
  intros Hset Hinc Hre. unfold rate_session_body.
  destruct (negb _); [apply keeps_raise|].
  apply keeps_bind; [apply keeps_oid|]. intros k.
  apply keeps_bind; [apply keeps_find_one_session|]. intros [[_ s]|];
    [|apply keeps_raise].
  apply keeps_bind; [apply keeps_insert_one_rating|]. intros _.
  apply keeps_bind; [by apply keeps_update_ratee_rating|]. intros _.
  by apply keeps_after_ratee.
Qed.

End Frame.

Lemma same_rating_inc_counters dc dt dl u :
  same_rating u (inc_counters dc dt dl u).
Proof. done. Qed.

Lemma same_rating_rebadge u : same_rating u (rebadge u).
Proof. done. Qed.

Lemma same_rating_trans u v w :
  same_rating u v → same_rating v w → same_rating u w.
Proof. unfold same_rating. intros [-> ->] [-> ->]. done. Qed.

Lemma badges_kept_rebadge u : badges_kept u (rebadge u).
Proof. intros b Hb. apply elem_of_rebadge. by left. Qed.

Lemma badges_kept_refl u : badges_kept u u.
Proof. intros b Hb. exact Hb. Qed.

Lemma badges_kept_trans u v w :
  badges_kept u v → badges_kept v w → badges_kept u w.
Proof. unfold badges_kept. eauto. Qed.

(** One call, whatever it is and however it ends, loses no badge. *)
Lemma rate_session_body_badges_kept req now1 now2 :
  keeps badges_kept (rate_session_body req now1 now2).
Proof.
  apply keeps_rate_session_body.
  - exact badges_kept_refl.
  - exact badges_kept_trans.
  - intros a c u b Hb. exact Hb.
  - intros dc dt dl u b Hb. exact Hb.
  - exact badges_kept_rebadge.
Qed.

Lemma run_calls_badges_kept calls st :
  ∃ st', run_calls calls (Some st) = Some st' ∧ users_rel badges_kept st st'.
Proof.
  revert st. induction calls as [|[[req now1] now2] calls IH]; intros st.
  - exists st. split; [done|]. apply users_rel_refl. exact badges_kept_refl.
  - simpl. pose proof (rate_session_body_badges_kept req now1 now2 st) as H1.
    destruct (rate_session_body req now1 now2 st) as [st1 r]. simpl in *.
    destruct (IH st1) as (st' & Hrun & H2). exists st'. split; [done|].
    eapply users_rel_trans; [exact badges_kept_trans|done|done].
Qed.

Lemma score_check_true req :
  1 <= score req <= 5 → (1 <=? score req) && (score req <=? 5) = true.
Proof. intros ?. apply andb_true_iff. split; apply Z.leb_le; lia. Qed.

Lemma score_check_false req :
  ¬ (1 <= score req <= 5) → (1 <=? score req) && (score req <=? 5) = false.
Proof.
  intros Hs. apply andb_false_iff.
  destruct (Z.leb_spec 1 (score req)); [|by left].
  destruct (Z.leb_spec (score req) 5); [|by right]. lia.
Qed.

(** ** The rating average *)

(** C1: when the ratee's document is stored with average [a] and count [c],
    a rating with a score from 1 to 5 for a stored session leaves it with
    count [c + 1] and average [(a * c + s) / (c + 1)], whatever happens in
    the later steps of the call; the ratee block writes both fields in a
    single [update_one]. The count is in the range of the data model: not
    negative, and small enough for [c + 1] to be stored. *)
Theorem C1_rating_average st req now1 now2 sk s rk u a c :
  1 <= score req <= 5 →
  ObjectId_of (session_id req) = Some sk →
  session st !! sk = Some s →
  ObjectId_of (ratee_id req) = Some rk →
  user st !! rk = Some u →
  rating_avg u = a →
  rating_count u = c →
  0 <= c < 2 ^ 63 - 1 →
  (∃ st' r u',
     rate_session (Some st) req now1 now2 = (Some st', r)
     ∧ user st' !! rk = Some u'
     ∧ rating_count u' = c + 1
     ∧ rating_avg u' = mean_with a c (score req))
  ∧ update_ratee_rating req st =
      update_one_user rk (set_rating (mean_with a c (score req)) (c + 1)) st.
Proof.
  intros Hscore Hsk Hs Hrk Hu Ha Hc Hrange.
  assert (ratee_count_ok st rk = true) as Hok.
  { unfold ratee_count_ok, ratee_count_room. rewrite Hu.
    apply andb_true_iff. split; [apply Z.leb_le|apply Z.ltb_lt]; lia. }
  split.
  - unfold rate_session, rate_session_body.
    rewrite (score_check_true _ Hscore). simpl.
    rewrite (bind_inr _ _ _ _ _ (oid_Some _ _ _ Hsk)).
    unfold bind at 1, find_one_session at 1. rewrite Hs. simpl.
    unfold bind at 1, insert_one_rating at 1.
    erewrite bind_inr; [|by apply update_ratee_rating_run].
    match goal with |- context [bind (coins_logic s) ?f ?st2] =>
      pose proof (keeps_after_ratee same_rating (λ u, conj eq_refl eq_refl)
                    same_rating_trans req s now2
                    same_rating_inc_counters same_rating_rebadge st2) as Hkeep;
      destruct (bind (coins_logic s) f st2) as [st' r] end.
    simpl in Hkeep.
    destruct (Hkeep rk (rate_user (score req) u)) as (u' & Hu' & Hcnt & Havg).
    { simpl. by rewrite lookup_alter_eq, Hu. }
    exists st', r, u'. simpl in *. subst a c. done.
  - rewrite (update_ratee_rating_run _ _ _ Hrk Hok).
    unfold update_one_user. do 2 f_equal.
    apply alter_ext. intros u0 Hu0. simplify_eq. done.
Qed.

(** ** Rejected calls *)

(** C6: a score outside 1..5 ends the call with status 400 before anything
    is read or written: the store is returned as it was given. *)
Theorem C6_score_out_of_range st req now1 now2 :
  ¬ (1 <= score req <= 5) →
  ∃ e, rate_session (Some st) req now1 now2 = (Some st, inl e)
       ∧ InvalidArgument e.
Proof.
  intros Hscore. unfold rate_session, rate_session_body.
  rewrite (score_check_false _ Hscore). simpl.
  eexists. split; [reflexivity|]. by eexists.
Qed.

(** C7, as amended: with a score in range, a well-formed session id that
    names no stored session ends the call with status 404 and the store as
    it was given. *)
Theorem C7_session_not_found st req now1 now2 sk :
  1 <= score req <= 5 →
  ObjectId_of (session_id req) = Some sk →
  session st !! sk = None →
  ∃ e, rate_session (Some st) req now1 now2 = (Some st, inl e) ∧ NotFound e.
Proof.
  intros Hscore Hsk Hnone. unfold rate_session, rate_session_body.
  rewrite (score_check_true _ Hscore). simpl.
  rewrite (bind_inr _ _ _ _ _ (oid_Some _ _ _ Hsk)).
  unfold bind, find_one_session. rewrite Hnone. simpl.
  eexists. split; [reflexivity|]. by eexists.
Qed.

(** C5, as amended: a malformed session id ends the call with status 400
    and the store as it was given. A malformed ratee id is only met when the
    ratee is looked up: with a score in range and a stored session the call
    ends with status 400 in a store that holds the new Rating and is
    otherwise as given. The rater id is never parsed: a settlement call
    succeeds with a malformed one. *)
Theorem C5_malformed_ids st req now1 now2 :
  (ObjectId_of (session_id req) = None →
     ∃ e, rate_session (Some st) req now1 now2 = (Some st, inl e)
          ∧ InvalidArgument e)
  ∧ (∀ sk s,
       1 <= score req <= 5 →
       ObjectId_of (session_id req) = Some sk →
       session st !! sk = Some s →
       ObjectId_of (ratee_id req) = None →
       ∃ e, rate_session (Some st) req now1 now2 =
              (Some {| user := user st; session := session st;
                       rating := rating_of req now1 :: rating st |}, inl e)
            ∧ InvalidArgument e)
  ∧ (∀ sk s rk,
       settlement_call st req sk s rk →
       ObjectId_of (rater_id req) = None →
       ∃ st', rate_session (Some st) req now1 now2 = (Some st', inr Ok)).
Proof.
  repeat split.
  - intros Hsk. unfold rate_session, rate_session_body.
    destruct (negb _); simpl.
    + eexists. split; [reflexivity|]. by eexists.
    + rewrite (bind_inl _ _ _ _ _ (oid_None _ _ Hsk)).
      eexists. split; [reflexivity|]. by eexists.
  - intros sk s Hscore Hsk Hs Hrk. unfold rate_session, rate_session_body.
    rewrite (score_check_true _ Hscore). simpl.
    rewrite (bind_inr _ _ _ _ _ (oid_Some _ _ _ Hsk)).
    unfold bind at 1, find_one_session at 1. rewrite Hs. simpl.
    unfold bind at 1, insert_one_rating at 1.
    unfold bind at 1, update_ratee_rating at 1.
    rewrite (bind_inl _ _ _ _ _ (oid_None _ _ Hrk)).
    eexists. split; [reflexivity|]. by eexists.
  - intros sk s rk Hcall _.
    destruct (settlement_outcome st req now1 now2 sk s rk Hcall)
      as (st' & Hrun & _). eauto.
Qed.

(** ** Which calls succeed *)

Lemma bind_inr_inv {A B} (m : M A) (f : A → M B) st st' b :
  bind m f st = (st', inr b) →
  ∃ st1 a, m st = (st1, inr a) ∧ f a st1 = (st', inr b).
Proof.
  unfold bind. destruct (m st) as [st1 [e|a]]; [intros [=]|]. eauto.
Qed.

Lemma oid_inr_inv id_str st st' k :
  oid id_str st = (st', inr k) → ObjectId_of id_str = Some k.
Proof.
  unfold oid. destruct (ObjectId_of id_str); [|intros [=]].
  unfold ret. by intros [= _ ->].
Qed.

Lemma update_ratee_rating_inr_inv req st st' :
  update_ratee_rating req st = (st', inr tt) →
  ∃ rk, ObjectId_of (ratee_id req) = Some rk
        ∧ ∀ u, user st !! rk = Some u → rating_count u ≠ -1.
Proof.
  unfold update_ratee_rating. intros Hrun.
  apply bind_inr_inv in Hrun as (st1 & rk & Hoid & Hrun).
  pose proof (oid_inr_inv _ _ _ _ Hoid) as Hrk.
  rewrite (oid_Some _ _ st Hrk) in Hoid. simplify_eq.
  exists rk. split; [done|]. intros u Hu Hc. revert Hrun.
  unfold bind at 1, find_one_user at 1. rewrite Hu. simpl.
  unfold bind at 1, lift, new_avg. rewrite Hc. simpl. intros [=].
Qed.

Lemma coins_logic_inr_inv s st st' :
  coins_logic s st = (st', inr tt) →
  paid s = true →
  is_Some (ObjectId_of (teacher_id s)) ∧ is_Some (ObjectId_of (learner_id s)).
Proof.
  unfold coins_logic, paid. intros Hrun Hp. rewrite Hp in Hrun.
  apply bind_inr_inv in Hrun as (st1 & tk & Htk & Hrun).
  apply bind_inr_inv in Hrun as (st2 & [] & _ & Hrun).
  apply bind_inr_inv in Hrun as (st3 & lk & Hlk & _).
  apply oid_inr_inv in Htk, Hlk. eauto.
Qed.

Lemma badges_block_inr_inv s st st' :
  badges_block s st = (st', inr tt) →
  truthy (teacher_id s) = true →
  is_Some (ObjectId_of (teacher_id s)).
Proof.
  unfold badges_block. intros Hrun Ht. rewrite Ht in Hrun.
  apply bind_inr_inv in Hrun as (st1 & t & Hrun & _).
  apply bind_inr_inv in Hrun as (st2 & tk & Htk & _).
  apply oid_inr_inv in Htk. eauto.
Qed.

(** The calls that return [Ok] are the settlement calls: a call succeeds
    only under the conditions of [settlement_call], with the ratee's count
    different from [-1] in place of the data model's range. *)
Lemma success_is_settlement st req now1 now2 st' :
  rate_session (Some st) req now1 now2 = (Some st', inr Ok) →
  ∃ sk s rk,
    1 <= score req <= 5
    ∧ ObjectId_of (session_id req) = Some sk
    ∧ session st !! sk = Some s
    ∧ ObjectId_of (ratee_id req) = Some rk
    ∧ (∀ u, user st !! rk = Some u → rating_count u ≠ -1)
    ∧ participants_ok s = true.
Proof.
  unfold rate_session.
  destruct (rate_session_body req now1 now2 st) as [st1 r] eqn:Hrun.
  intros [= -> ->]. revert Hrun. unfold rate_session_body.
  destruct ((1 <=? score req) && (score req <=? 5)) eqn:Hscore; simpl;
    [|intros [=]].
  apply andb_true_iff in Hscore as [H1 H2].
  apply Z.leb_le in H1. apply Z.leb_le in H2. intros Hrun.
  apply bind_inr_inv in Hrun as (st1 & sk & Hsk & Hrun).
  pose proof (oid_inr_inv _ _ _ _ Hsk) as Hsk'.
  rewrite (oid_Some _ _ st Hsk') in Hsk. simplify_eq.
  revert Hrun. unfold bind at 1, find_one_session at 1.
  destruct (session st1 !! sk) as [s|] eqn:Hs; simpl; [|intros [=]].
  unfold bind at 1, insert_one_rating at 1. intros Hrun.
  apply bind_inr_inv in Hrun as (st2 & [] & Hratee & Hrun).
  apply bind_inr_inv in Hrun as (st3 & [] & Hcoins & Hrun).
  apply bind_inr_inv in Hrun as (st4 & [] & _ & Hrun).
  apply bind_inr_inv in Hrun as (st5 & [] & Hbadges & _).
  apply update_ratee_rating_inr_inv in Hratee as (rk & Hrk & Hcount).
  exists sk, s, rk. repeat split; try done.
  unfold participants_ok. apply andb_true_iff. split.
  - destruct (truthy (teacher_id s)) eqn:Ht; [|done].
    apply bool_decide_eq_true. by eapply badges_block_inr_inv.
  - destruct (paid s) eqn:Hp; [|done].
    apply bool_decide_eq_true. by eapply coins_logic_inr_inv.
Qed.

(** ** Badges over time *)

(** C9: over any sequence of calls, successful or not, a badge a stored
    user holds at the start is still held at the end — by the teacher of
    any of the sessions as by anybody else, and whatever has become of the
    counters that once granted it. *)
Theorem C9_badges_monotone calls st k u b :
  user st !! k = Some u →
  b ∈ badges u →
  ∃ st' u', run_calls calls (Some st) = Some st'
    ∧ user st' !! k = Some u' ∧ b ∈ badges u'.
Proof.
  intros Hk Hb.
  destruct (run_calls_badges_kept calls st) as (st' & Hrun & Hrel).
  destruct (Hrel k u Hk) as (u' & Hu' & Hkept).
  exists st', u'. auto.
Qed.

End Properties.

(** * The theorems at work on the sample store *)

Section Samples.
Local Existing Instance hex_ids.

Local Ltac by_evaluation :=
  first [ vm_compute; reflexivity | simpl; lia ].

Local Ltac is_settlement_call := split; by_evaluation.

(** A call ends in the store [after] computes, with the result the body
    computes. *)
Lemma run_after st req r :
  (rate_session_body req 100 101 st).2 = r →
  run st req = (Some (after st req), r).
Proof.
  intros <-. unfold run, rate_session, after.
  by destruct (rate_session_body req 100 101 st).
Qed.

(** The spec's scenario: a teacher at 9 teaching sessions and an average
    above 4.5 is rated 5 by the learner. The new average is the double
    nearest to 4.8. *)
Example scenario_tenth_session :
  run store0 req0 = (Some (after store0 req0), inr Ok)
  ∧ user (after store0 req0) !! id_t =
      Some (mk_user "t@x.io" 30 0x1.3333333333333p+2%float 5
              ["Skill Streak"; "Top Mentor"; "Helpful Teacher"] 10 0).
Proof. split; [apply run_after|]; vm_compute; reflexivity. Qed.

(** The spec's scenario: the learner's document is gone; the teacher is
    paid all the same and the call succeeds. *)
Example scenario_learner_deleted :
  let st := store_of (mk_session id_t id_none) in
  run st req0 = (Some (after st req0), inr Ok)
  ∧ user (after st req0) !! id_none = None
  ∧ (coins <$> user (after st req0) !! id_t = Some 30)
  ∧ (teaching_sessions <$> user (after st req0) !! id_t = Some 10).
Proof.
  split; [apply run_after; vm_compute; reflexivity|].
  repeat split; vm_compute; reflexivity.
Qed.

(** ** Witnesses *)

Lemma C1_rating_average_witness :
  (∃ st' r u',
     run store0 req0 = (Some st', r)
     ∧ user st' !! id_t = Some u'
     ∧ rating_count u' = 4 + 1
     ∧ rating_avg u' = mean_with 4.75 4 5)
  ∧ update_ratee_rating req0 store0 =
      update_one_user id_t (set_rating (mean_with 4.75 4 5) (4 + 1)) store0.
Proof.
  apply (C1_rating_average store0 req0 100 101 id_s session0 id_t teacher0
           4.75%float 4); by_evaluation.
Defined.

Lemma C2_coin_transfer_witness :
  ∃ st', run store0 req0 = (Some st', inr Ok)
    ∧ (id_t ≠ id_l →
         (∀ t0, user store0 !! id_t = Some t0 →
            ∃ t', user st' !! id_t = Some t'
              ∧ coins t' = coins t0 + 10
              ∧ teaching_sessions t' = teaching_sessions t0 + 1)
         ∧ (∀ l0, user store0 !! id_l = Some l0 →
              ∃ l', user st' !! id_l = Some l'
                ∧ coins l' = coins l0 - 10
                ∧ learning_sessions l' = learning_sessions l0 + 1)
         ∧ (user store0 !! id_t = None → user st' !! id_t = None)
         ∧ (user store0 !! id_l = None → user st' !! id_l = None))
    ∧ (id_t = id_l →
         ∀ t0, user store0 !! id_t = Some t0 →
           ∃ t', user st' !! id_t = Some t'
             ∧ coins t' = coins t0
             ∧ teaching_sessions t' = teaching_sessions t0 + 1
             ∧ learning_sessions t' = learning_sessions t0 + 1).
Proof.
  apply (C2_coin_transfer store0 req0 100 101 id_s session0 id_t id_t id_l);
    [is_settlement_call | by_evaluation ..].
Defined.

Lemma C3_teacher_badges_witness :
  ∃ st', run store0 req0 = (Some st', inr Ok)
    ∧ badges_recomputed session0 store0 st'.
Proof.
  apply (C3_teacher_badges store0 req0 100 101 id_s session0 id_t).
  is_settlement_call.
Defined.

Lemma C4_completed_and_repeatable_witness :
  ∃ st1 st2,
    run store0 req0 = (Some st1, inr Ok)
    ∧ session_completed id_s 101 st1
    ∧ rate_session (Some st1) req0 200 201 = (Some st2, inr Ok)
    ∧ session_completed id_s 201 st2
    ∧ rating st2 = rating_of req0 200 :: rating_of req0 100 :: rating store0
    ∧ coins_settled session0 store0 st1
    ∧ coins_settled session0 st1 st2
    ∧ (∀ u0, user store0 !! id_t = Some u0 →
         ∃ u1 u2, user st1 !! id_t = Some u1 ∧ user st2 !! id_t = Some u2
           ∧ rating_count u1 = rating_count u0 + 1
           ∧ rating_avg u1 =
               mean_with (rating_avg u0) (rating_count u0) (score req0)
           ∧ rating_count u2 = rating_count u1 + 1
           ∧ rating_avg u2 =
               mean_with (rating_avg u1) (rating_count u1) (score req0)).
Proof.
  apply (C4_completed_and_repeatable store0 req0 100 101 200 201 id_s
           session0 id_t); [is_settlement_call | by_evaluation].
Defined.

Lemma C5_malformed_ids_witness :
  (∃ e, run store0 (mk_req "42" id_l id_t 5) = (Some store0, inl e)
        ∧ InvalidArgument e)
  ∧ (∃ e, run store0 (mk_req id_s id_l "42" 5) =
            (Some {| user := user store0; session := session store0;
                     rating := rating_of (mk_req id_s id_l "42" 5) 100
                               :: rating store0 |}, inl e)
          ∧ InvalidArgument e)
  ∧ (∃ st', run store0 (mk_req id_s "42" id_t 5) = (Some st', inr Ok)).
Proof.
  split; [|split].
  - apply (proj1 (C5_malformed_ids store0 (mk_req "42" id_l id_t 5) 100 101)).
    by_evaluation.
  - apply (proj1 (proj2 (C5_malformed_ids store0 (mk_req id_s id_l "42" 5)
                           100 101)) id_s session0); by_evaluation.
  - apply (proj2 (proj2 (C5_malformed_ids store0 (mk_req id_s "42" id_t 5)
                           100 101)) id_s session0 id_t);
      [is_settlement_call | by_evaluation].
Defined.

Lemma C6_score_out_of_range_witness :
  ∃ e, run store0 (mk_req id_s id_l id_t 6) = (Some store0, inl e)
       ∧ InvalidArgument e.
Proof.
  apply (C6_score_out_of_range store0 (mk_req id_s id_l id_t 6) 100 101).
  simpl. lia.
Defined.

Lemma C7_session_not_found_witness :
  ∃ e, run store0 (mk_req id_none id_l id_t 5) = (Some store0, inl e)
       ∧ NotFound e.
Proof.
  apply (C7_session_not_found store0 (mk_req id_none id_l id_t 5) 100 101
           id_none); by_evaluation.
Defined.

Lemma C8_absent_ratee_witness :
  ∃ st', run store0 (mk_req id_s id_l id_none 5) = (Some st', inr Ok)
    ∧ user st' !! id_none = None
    ∧ (∀ k, rating_count <$> user st' !! k = rating_count <$> user store0 !! k
            ∧ rating_avg <$> user st' !! k = rating_avg <$> user store0 !! k)
    ∧ rating st' = rating_of (mk_req id_s id_l id_none 5) 100 :: rating store0
    ∧ coins_settled session0 store0 st'
    ∧ session_completed id_s 101 st'
    ∧ badges_recomputed session0 store0 st'.
Proof.
  apply (C8_absent_ratee store0 (mk_req id_s id_l id_none 5) 100 101 id_s
           session0 id_none); [is_settlement_call | by_evaluation].
Defined.

Lemma C9_badges_monotone_witness :
  ∃ st' u',
    run_calls low_ratings (Some store_h) = Some st'
    ∧ user st' !! id_t = Some u'
    ∧ "Helpful Teacher" ∈ badges u'
    ∧ rating_avg u' = 3.5%float
    ∧ PrimFloat.ltb 4.5 (rating_avg u') = false
    ∧ teaching_sessions u' = 11.
Proof.
  destruct (C9_badges_monotone low_ratings store_h id_t teacher_h
              "Helpful Teacher") as (st' & u' & Hrun & Hu & Hb).
  - by_evaluation.
  - vm_compute. apply list_elem_of_here.
  - exists st', u'. split; [exact Hrun|]. split; [exact Hu|].
    split; [exact Hb|].
    assert (from_option (λ st, rating_avg <$> user st !! id_t) None
              (run_calls low_ratings (Some store_h)) = Some 3.5%float)
      as Havg by (vm_compute; reflexivity).
    assert (from_option (λ st, teaching_sessions <$> user st !! id_t) None
              (run_calls low_ratings (Some store_h)) = Some 11)
      as Hts by (vm_compute; reflexivity).
    rewrite Hrun in Havg, Hts. cbv beta iota delta [from_option] in Havg, Hts.
    assert (rating_avg <$> Some u' = Some 3.5%float) as Havg'
      by (rewrite <- Hu; exact Havg).
    assert (teaching_sessions <$> Some u' = Some 11) as Hts'
      by (rewrite <- Hu; exact Hts).
    injection Havg' as Havg3. injection Hts' as Hts11.
    rewrite Havg3. split; [reflexivity|]. split; [reflexivity|exact Hts11].
Defined.

Lemma C10_no_participant_check_witness :
  ∃ st', run store0 (mk_req id_s id_x id_x 5) = (Some st', inr Ok)
    ∧ rating st' = rating_of (mk_req id_s id_x id_x 5) 100 :: rating store0
    ∧ (∀ u, user store0 !! id_x = Some u →
         ∃ u', user st' !! id_x = Some u'
           ∧ rating_count u' = rating_count u + 1
           ∧ rating_avg u' = mean_with (rating_avg u) (rating_count u) 5)
    ∧ coins_settled session0 store0 st'.
Proof.
  apply (C10_no_participant_check store0 (mk_req id_s id_x id_x 5) 100 101
           id_s session0 id_x).
  is_settlement_call.
Defined.

(** ** Counterexamples to the claims as first stated *)

(** C2 as stated: a session that names one user as teacher and learner is a
    settlement call with both ids populated, and the teacher's coins stay at
    20 instead of rising to 30. *)
Lemma C2_counterexample :
  let s := mk_session id_t id_t in
  let req := mk_req id_s id_l id_x 5 in
  settlement_call (store_of s) req id_s s id_x
  ∧ paid s = true
  ∧ ∃ st' t0 t',
      run (store_of s) req = (Some st', inr Ok)
      ∧ user (store_of s) !! id_t = Some t0
      ∧ user st' !! id_t = Some t'
      ∧ coins t0 = 20 ∧ coins t' = 20 ∧ coins t' ≠ coins t0 + 10.
Proof.
  split; [is_settlement_call|]. split; [reflexivity|].
  exists (after (store_of (mk_session id_t id_t)) (mk_req id_s id_l id_x 5)),
    teacher0, (mk_user "t@x.io" 20 4.75%float 4
                 ["Skill Streak"; "Top Mentor"; "Helpful Teacher"] 10 1).
  split; [apply run_after; vm_compute; reflexivity|].
  split; [vm_compute; reflexivity|].
  split; [vm_compute; reflexivity|]. simpl. repeat split. lia.
Qed.

(** C5 as stated: with a malformed ratee id the call does fail with status
    400, but the Rating has been inserted by then. *)
Lemma C5_counterexample :
  let req := mk_req id_s id_l "not-an-object-id" 5 in
  ObjectId_of (ratee_id req) = None
  ∧ rating store0 = []
  ∧ ∃ st' e,
      run store0 req = (Some st', inl e)
      ∧ InvalidArgument e
      ∧ rating st' = [rating_of req 100]
      ∧ st' ≠ store0.
Proof.
  split; [reflexivity|]. split; [reflexivity|].
  exists (after store0 (mk_req id_s id_l "not-an-object-id" 5)),
    (HTTPException 400 "Invalid object id").
  split; [apply run_after; vm_compute; reflexivity|].
  split; [by eexists|]. split; [vm_compute; reflexivity|].
  intros Heq. apply (f_equal rating) in Heq. vm_compute in Heq.
  discriminate Heq.
Qed.

(** C7 as stated: a well-formed session id that names no session, sent
    with score 0, is answered with status 400, not 404. *)
Lemma C7_counterexample :
  let req := mk_req id_none id_l id_t 0 in
  ObjectId_of (session_id req) = Some id_none
  ∧ session store0 !! id_none = None
  ∧ ¬ ∃ st' e, run store0 req = (st', inl e) ∧ NotFound e.
Proof.
  split; [reflexivity|]. split; [vm_compute; reflexivity|].
  intros (st' & e & Hrun & detail & He). subst e.
  rewrite (run_after store0 _ (inl (HTTPException 400 "Score must be 1-5")))
    in Hrun by (vm_compute; reflexivity).
  congruence.
Qed.

(** C10 as stated: the session exists and rater and ratee are well-formed,
    yet the call fails, because the session's own participant ids are not
    object ids ([schedule_session] stores whatever strings it is sent); and
    so does a call on the sample session with score 0. *)
Lemma C10_counterexample :
  let s := mk_session "alice" "bob" in
  let req := mk_req id_s id_l id_x 5 in
  (ObjectId_of (session_id req) = Some id_s
   ∧ session (store_of s) !! id_s = Some s
   ∧ is_Some (ObjectId_of (rater_id req))
   ∧ is_Some (ObjectId_of (ratee_id req))
   ∧ ∃ st', run (store_of s) req =
              (Some st', inl (HTTPException 400 "Invalid object id")))
  ∧ run store0 (mk_req id_s id_l id_x 0) =
      (Some store0, inl (HTTPException 400 "Score must be 1-5")).
Proof.
  split.
  - split; [reflexivity|]. split; [vm_compute; reflexivity|].
    split; [by eexists|]. split; [by eexists|].
    exists (after (store_of (mk_session "alice" "bob"))
              (mk_req id_s id_l id_x 5)).
    apply run_after. vm_compute. reflexivity.
  - unfold run, rate_session, rate_session_body. reflexivity.
Qed.

End Samples.

(** * Properties of the other handlers *)

Section HandlerProperties.
Context `{DRV : Driver}.
Implicit Types (st : Store) (k : ObjectId) (u : User).

(** ** The driver *)

Lemma ObjectId_str_inj k1 k2 : ObjectId_str k1 = ObjectId_str k2 → k1 = k2.
Proof.
  intros Heq. pose proof (ObjectId_of_str k1) as H1.
  rewrite Heq, ObjectId_of_str in H1. by simplify_eq.
Qed.

Lemma elem_of_cursor {V} (m : gmap ObjectId V) k v :
  (k, v) ∈ cursor m ↔ m !! k = Some v.
Proof. rewrite cursor_perm. apply elem_of_map_to_list. Qed.

Lemma NoDup_cursor {V} (m : gmap ObjectId V) : NoDup (cursor m).
Proof. rewrite cursor_perm. apply NoDup_map_to_list. Qed.

Lemma head_filter_None {A} (P : A → Prop) `{∀ x, Decision (P x)} (l : list A) :
  head (filter P l) = None ↔ ∀ x, x ∈ l → ¬ P x.
Proof.
  rewrite head_None. split.
  - intros Hnil x Hx HP.
    assert (x ∈ filter P l) as Hin by (by apply list_elem_of_filter).
    rewrite Hnil in Hin. by apply elem_of_nil in Hin.
  - intros Hall. destruct (filter P l) as [|x l'] eqn:Hf; [done|].
    assert (x ∈ filter P l) as Hin by (rewrite Hf; left).
    apply list_elem_of_filter in Hin as [HP Hin]. by destruct (Hall x Hin).
Qed.

Lemma head_filter_Some {A} (P : A → Prop) `{∀ x, Decision (P x)} (l : list A) x :
  head (filter P l) = Some x → P x ∧ x ∈ l.
Proof.
  intros Hh. apply head_Some_elem_of in Hh.
  by apply list_elem_of_filter in Hh.
Qed.

(** What [find_one] with a filter on the fields returns: nothing exactly
    when no stored document passes the filter, and otherwise a stored
    document that passes it. *)
Lemma find_one_user_where_None p st :
  (find_one_user_where p st).2 = inr None
  ↔ ∀ k u, user st !! k = Some u → p u = false.
Proof.
  unfold find_one_user_where. simpl. split.
  - intros [= Hh] k u Hk.
    apply (head_filter_None (λ kv : ObjectId * User, p kv.2)) with (x := (k, u))
      in Hh; [|by apply elem_of_cursor].
    simpl in Hh. by destruct (p u).
  - intros Hall. f_equal.
    apply (head_filter_None (λ kv : ObjectId * User, p kv.2)).
    intros [k u] Hin. simpl. apply elem_of_cursor in Hin.
    rewrite (Hall k u Hin). by intros [].
Qed.

Lemma find_one_user_where_Some p st k u :
  (find_one_user_where p st).2 = inr (Some (k, u)) →
  user st !! k = Some u ∧ p u = true.
Proof.
  unfold find_one_user_where. simpl. intros [= Hh].
  apply (head_filter_Some (λ kv : ObjectId * User, p kv.2)) in Hh as [Hp Hin].
  apply elem_of_cursor in Hin. simpl in Hp. split; [done|].
  by destruct (p u).
Qed.

Lemma find_one_user_where_total p st :
  ∃ r, find_one_user_where p st = (st, inr r).
Proof. by eexists. Qed.

Lemma find_by_email st e :
  match head (filter (λ kv : ObjectId * User, bool_decide (email kv.2 = e))
                (cursor (user st))) with
  | Some (k, u) => user st !! k = Some u ∧ email u = e
  | None => ¬ email_taken st e
  end.
Proof.
  destruct (head _) as [[k u]|] eqn:Hh.
  - apply (head_filter_Some
             (λ kv : ObjectId * User, bool_decide (email kv.2 = e)))
      in Hh as [Hp Hin].
    apply elem_of_cursor in Hin. split; [done|].
    by apply bool_decide_unpack in Hp.
  - intros (k & u & Hk & He).
    apply (head_filter_None
             (λ kv : ObjectId * User, bool_decide (email kv.2 = e)))
      with (x := (k, u)) in Hh; [|by apply elem_of_cursor].
    apply Hh. by apply bool_decide_pack.
Qed.

Lemma mvp_hash_inj p1 p2 : mvp_hash p1 = mvp_hash p2 → p1 = p2.
Proof. unfold mvp_hash. simpl. by intros [=]. Qed.

Lemma emails_unique_with_user st k u :
  emails_unique st → ¬ email_taken st (email u) →
  emails_unique (with_user k u st).
Proof.
  intros Huniq Hfree k1 k2 u1 u2. unfold with_user. simpl.
  rewrite !lookup_insert.
  repeat case_decide; intros H1 H2 He; simplify_eq; try done.
  - destruct Hfree. by exists k2, u2.
  - destruct Hfree. by exists k1, u1.
  - by eapply Huniq.
Qed.

(** ** [register] and [login] *)

Lemma register_run_new st req now1 now2 inserted_id :
  ¬ email_taken st (register_email req) →
  register (Some st) req now1 now2 inserted_id =
    (Some (with_user inserted_id (new_user req now1 now2) st),
     inr {| user_id := ObjectId_str inserted_id;
            auth_email := register_email req |}).
Proof.
  intros Hfree. unfold register, with_db, bind, find_one_user_where.
  pose proof (find_by_email st (register_email req)) as Hfind.
  destruct (head _) as [[k u]|]; [|done].
  destruct Hfree. exists k, u. done.
Qed.

(** [login] finds the one user with the email, when nobody else has it. *)
Lemma login_run_only st req k u :
  (∀ k' u', user st !! k' = Some u' → email u' = login_email req → k' = k) →
  user st !! k = Some u →
  email u = login_email req →
  login (Some st) req =
    (Some st,
     if decide (password_hash u = mvp_hash (login_password req))
     then inr {| user_id := ObjectId_str k; auth_email := login_email req |}
     else inl (HTTPException 401 "Invalid credentials")).
Proof.
  intros Honly Hk He. unfold login, with_db, bind, find_one_user_where.
  pose proof (find_by_email st (login_email req)) as Hfind.
  destruct (head _) as [[k' u']|]; simpl.
  - destruct Hfind as [Hk' He'].
    assert (k' = k) as -> by (by eapply Honly).
    simplify_eq.
    destruct (decide (password_hash u = mvp_hash (login_password req)))
      as [Hpw|Hpw].
    + by rewrite bool_decide_eq_false_2 by (by intros ?).
    + by rewrite bool_decide_eq_true_2.
  - destruct Hfind. by exists k, u.
Qed.

Lemma login_run_found st req k u :
  emails_unique st →
  user st !! k = Some u →
  email u = login_email req →
  login (Some st) req =
    (Some st,
     if decide (password_hash u = mvp_hash (login_password req))
     then inr {| user_id := ObjectId_str k; auth_email := login_email req |}
     else inl (HTTPException 401 "Invalid credentials")).
Proof.
  intros Huniq Hk He. apply login_run_only; [|done..].
  intros k' u' Hk' He'. eapply Huniq; [done..|congruence].
Qed.

Lemma login_run_unknown st req :
  ¬ email_taken st (login_email req) →
  login (Some st) req =
    (Some st, inl (HTTPException 401 "Invalid credentials")).
Proof.
  intros Hfree. unfold login, with_db, bind, find_one_user_where.
  pose proof (find_by_email st (login_email req)) as Hfind.
  destruct (head _) as [[k u]|]; [|done].
  destruct Hfree. exists k, u. done.
Qed.

(** X1: an email that some stored user already has is refused with status
    409, and nothing is written. *)
Theorem register_email_taken st req now1 now2 inserted_id :
  email_taken st (register_email req) →
  register (Some st) req now1 now2 inserted_id =
    (Some st, inl (HTTPException 409 "Email already registered")).
Proof.
  intros Htaken. unfold register, with_db, bind, find_one_user_where.
  pose proof (find_by_email st (register_email req)) as Hfind.
  destruct (head _) as [[k u]|]; [done|]. by destruct Hfind.
Qed.

(** X2: with an email nobody has, the store gains exactly the document of
    a newcomer under the fresh id the driver issued — 20 coins, no rating,
    no badge, no session, the password behind the prefix [mvp::] — every
    other document stays, and the answer carries the new id as a string. *)
Theorem register_new_email st req now1 now2 inserted_id :
  ¬ email_taken st (register_email req) →
  user st !! inserted_id = None →
  ∃ st', register (Some st) req now1 now2 inserted_id =
           (Some st', inr {| user_id := ObjectId_str inserted_id;
                             auth_email := register_email req |})
    ∧ user st' !! inserted_id = Some (new_user req now1 now2)
    ∧ (∀ k, k ≠ inserted_id → user st' !! k = user st !! k)
    ∧ session st' = session st ∧ rating st' = rating st
    ∧ (∀ u, user st' !! inserted_id = Some u →
         coins u = 20 ∧ rating_count u = 0 ∧ badges u = []
         ∧ teaching_sessions u = 0 ∧ learning_sessions u = 0
         ∧ password_hash u = "mvp::" +:+ register_password req).
Proof.
  intros Hfree Hfresh. eexists. split; [by apply register_run_new|].
  simpl. rewrite lookup_insert_eq. repeat split; try done.
  - intros k Hk. by rewrite lookup_insert_ne.
  - by simplify_eq.
  - by simplify_eq.
  - by simplify_eq.
  - by simplify_eq.
  - by simplify_eq.
  - by simplify_eq.
Qed.

(** X3: [register] keeps emails unique, whether it accepts the request or
    refuses it. *)
Theorem register_keeps_emails_unique st req now1 now2 inserted_id :
  emails_unique st →
  user st !! inserted_id = None →
  ∃ st' r, register (Some st) req now1 now2 inserted_id = (Some st', r)
           ∧ emails_unique st'.
Proof.
  intros Huniq _. unfold register, with_db, bind, find_one_user_where.
  pose proof (find_by_email st (register_email req)) as Hfind.
  destruct (head _) as [[k u]|]; simpl.
  - by exists st, (inl (HTTPException 409 "Email already registered")).
  - do 2 eexists. split; [reflexivity|].
    by apply emails_unique_with_user.
Qed.

(** X4: after a successful [register], [login] with the same email
    succeeds with exactly the registered password, and then answers with
    the user id [register] returned; any other password is refused with
    status 401. *)
Theorem login_after_register st req now1 now2 inserted_id password :
  ¬ email_taken st (register_email req) →
  user st !! inserted_id = None →
  ∃ st' resp,
    register (Some st) req now1 now2 inserted_id = (Some st', inr resp)
    ∧ login (Some st')
        {| login_email := register_email req; login_password := password |}
      = (Some st',
         if decide (password = register_password req) then inr resp
         else inl (HTTPException 401 "Invalid credentials")).
Proof.
  intros Hfree _. do 2 eexists.
  split; [by apply register_run_new|].
  rewrite (login_run_only _ _ inserted_id (new_user req now1 now2)).
  - simpl. destruct (decide (password = register_password req)) as [->|Hne].
    + by rewrite decide_True.
    + rewrite decide_False; [done|]. intros Heq. apply mvp_hash_inj in Heq.
      congruence.
  - intros k' u'. simpl. rewrite lookup_insert.
    case_decide; [done|]. intros Hk' He'. destruct Hfree. by exists k', u'.
  - simpl. apply lookup_insert_eq.
  - done.
Qed.

(** X5: in a store with unique emails [login] succeeds exactly for a
    stored user's email with that user's password, answering with that
    user's id; a wrong password and an unknown email both get status 401;
    the store is never written. *)
Theorem login_checks_password st req :
  emails_unique st →
  (∀ k u, user st !! k = Some u → email u = login_email req →
     password_hash u = mvp_hash (login_password req) →
     login (Some st) req =
       (Some st, inr {| user_id := ObjectId_str k;
                        auth_email := login_email req |}))
  ∧ ((∀ k u, user st !! k = Some u → email u = login_email req →
        password_hash u ≠ mvp_hash (login_password req)) →
     login (Some st) req =
       (Some st, inl (HTTPException 401 "Invalid credentials"))).
Proof.
  intros Huniq. split.
  - intros k u Hk He Hpw. rewrite (login_run_found _ _ k u) by done.
    by rewrite decide_True.
  - intros Hbad.
    pose proof (find_by_email st (login_email req)) as Hfind.
    destruct (head _) as [[k u]|] eqn:Hh.
    + destruct Hfind as [Hk He]. rewrite (login_run_found _ _ k u) by done.
      rewrite decide_False; [done|]. by eapply Hbad.
    + by apply login_run_unknown.
Qed.

(** ** [update_profile] and [get_profile] *)

Lemma update_profile_run_found st user_id body now k u :
  ObjectId_of user_id = Some k →
  user st !! k = Some u →
  update_profile (Some st) user_id body now =
    (Some (with_user k (set_profile body now u) st),
     inr (ObjectId_str k, set_profile body now u)).
Proof.
  intros Hk Hu. unfold update_profile, with_db.
  rewrite (bind_inr _ _ _ _ _ (oid_Some _ _ _ Hk)).
  unfold bind at 1, update_one_user_matched at 1. rewrite Hu. simpl.
  rewrite (bind_inr _ _ _ _ _ (oid_Some _ _ _ Hk)).
  unfold bind, find_one_user. simpl. rewrite lookup_alter_eq, Hu. simpl.
  unfold ret, with_user. do 3 f_equal.
  apply map_eq. intros j. rewrite lookup_alter, lookup_insert.
  case_decide; [subst j; by rewrite Hu|done].
Qed.

Lemma update_profile_run_absent st user_id body now k :
  ObjectId_of user_id = Some k →
  user st !! k = None →
  update_profile (Some st) user_id body now =
    (Some st, inl (HTTPException 404 "User not found")).
Proof.
  intros Hk Hu. unfold update_profile, with_db.
  rewrite (bind_inr _ _ _ _ _ (oid_Some _ _ _ Hk)).
  unfold bind at 1, update_one_user_matched at 1. rewrite Hu. simpl.
  unfold raise. rewrite alter_absent by done. by rewrite store_eta.
Qed.

Lemma update_profile_run_malformed st user_id body now :
  ObjectId_of user_id = None →
  update_profile (Some st) user_id body now =
    (Some st, inl (HTTPException 400 "Invalid object id")).
Proof.
  intros Hk. unfold update_profile, with_db.
  by rewrite (bind_inl _ _ _ _ _ (oid_None _ _ Hk)).
Qed.

Lemma get_profile_run st user_id k :
  ObjectId_of user_id = Some k →
  get_profile (Some st) user_id =
    (Some st,
     match user st !! k with
     | Some u => inr (ObjectId_str k, u)
     | None => inl (HTTPException 404 "User not found")
     end).
Proof.
  intros Hk. unfold get_profile, with_db.
  rewrite (bind_inr _ _ _ _ _ (oid_Some _ _ _ Hk)).
  unfold bind, find_one_user. by destruct (user st !! k).
Qed.

(** X6: [update_profile] with a malformed id is refused with status 400
    and with a well-formed id that names no user with status 404; in both
    cases nothing is written. *)
Theorem update_profile_rejected st user_id body now :
  (ObjectId_of user_id = None →
     update_profile (Some st) user_id body now =
       (Some st, inl (HTTPException 400 "Invalid object id")))
  ∧ (∀ k, ObjectId_of user_id = Some k → user st !! k = None →
       update_profile (Some st) user_id body now =
         (Some st, inl (HTTPException 404 "User not found"))).
Proof.
  split.
  - apply update_profile_run_malformed.
  - intros k. apply update_profile_run_absent.
Qed.

(** X7: [update_profile] of a stored user writes the six profile fields as
    sent — the age too, whatever it is — and [updated_at]; it leaves the
    user's email, password hash, coins, rating, badges and session
    counters, and every other document, as they were, and answers with the
    document as now stored. *)
Theorem update_profile_writes_profile_only st user_id body now k u :
  ObjectId_of user_id = Some k →
  user st !! k = Some u →
  ∃ st' u',
    update_profile (Some st) user_id body now =
      (Some st', inr (ObjectId_str k, u'))
    ∧ user st' !! k = Some u'
    ∧ (name u' = profile_name body ∧ age u' = profile_age body
       ∧ city u' = profile_city body
       ∧ teach_skills u' = profile_teach_skills body
       ∧ learn_skills u' = profile_learn_skills body
       ∧ availability u' = profile_availability body
       ∧ user_updated_at u' = Some now)
    ∧ (email u' = email u ∧ password_hash u' = password_hash u
       ∧ coins u' = coins u ∧ rating_avg u' = rating_avg u
       ∧ rating_count u' = rating_count u ∧ badges u' = badges u
       ∧ teaching_sessions u' = teaching_sessions u
       ∧ learning_sessions u' = learning_sessions u
       ∧ user_created_at u' = user_created_at u)
    ∧ (∀ j, j ≠ k → user st' !! j = user st !! j)
    ∧ session st' = session st ∧ rating st' = rating st.
Proof.
  intros Hk Hu. do 2 eexists.
  split; [by apply update_profile_run_found|].
  simpl. rewrite lookup_insert_eq. repeat split; try done.
  intros j Hj. by rewrite lookup_insert_ne.
Qed.

(** X8: what [update_profile] answers is what [get_profile] then returns,
    under the id as it was sent and under the id as it is answered. *)
Theorem get_profile_after_update st user_id body now k u :
  ObjectId_of user_id = Some k →
  user st !! k = Some u →
  ∃ st' id' u',
    update_profile (Some st) user_id body now = (Some st', inr (id', u'))
    ∧ get_profile (Some st') user_id = (Some st', inr (id', u'))
    ∧ get_profile (Some st') id' = (Some st', inr (id', u')).
Proof.
  intros Hk Hu.
  exists (with_user k (set_profile body now u) st), (ObjectId_str k),
    (set_profile body now u).
  split; [by apply update_profile_run_found|].
  rewrite (get_profile_run _ _ k Hk).
  rewrite (get_profile_run _ _ k (ObjectId_of_str k)).
  simpl. by rewrite lookup_insert_eq.
Qed.

(** X9: the user id [register] answers with opens the new profile:
    [get_profile] on it returns the document [register] stored. *)
Theorem get_profile_after_register st req now1 now2 inserted_id :
  ¬ email_taken st (register_email req) →
  user st !! inserted_id = None →
  ∃ st' resp,
    register (Some st) req now1 now2 inserted_id = (Some st', inr resp)
    ∧ get_profile (Some st') (user_id resp) =
        (Some st', inr (user_id resp, new_user req now1 now2)).
Proof.
  intros Hfree _.
  exists (with_user inserted_id (new_user req now1 now2) st),
    {| user_id := ObjectId_str inserted_id;
       auth_email := register_email req |}.
  split; [by apply register_run_new|].
  cbn [user_id].
  rewrite (get_profile_run _ _ inserted_id (ObjectId_of_str _)).
  simpl. by rewrite lookup_insert_eq.
Qed.

(** ** [schedule_session], alone and before [rate_session] *)

Lemma schedule_session_run_ok st req now1 now2 inserted_id :
  schedule_duration req = 30 ∨ schedule_duration req = 60 →
  schedule_session (Some st) req now1 now2 inserted_id =
    (Some (with_session inserted_id (new_session req now1 now2) st),
     inr (ObjectId_str inserted_id)).
Proof.
  intros Hd. unfold schedule_session, with_db.
  replace ((schedule_duration req =? 30) || (schedule_duration req =? 60))
    with true; [done|].
  symmetry. apply orb_true_iff. destruct Hd as [->| ->]; auto.
Qed.

Lemma schedule_session_run_bad st req now1 now2 inserted_id :
  schedule_duration req ≠ 30 → schedule_duration req ≠ 60 →
  schedule_session (Some st) req now1 now2 inserted_id =
    (Some st, inl (HTTPException 400 "Invalid duration")).
Proof.
  intros H30 H60. unfold schedule_session, with_db.
  replace ((schedule_duration req =? 30) || (schedule_duration req =? 60))
    with false; [done|].
  symmetry. apply orb_false_iff. split; by apply Z.eqb_neq.
Qed.

(** X10: [schedule_session] depends on the duration alone. With 30 or 60 it
    stores the session as sent, in status [scheduled], under the fresh id
    and answers with that id, whatever the chat, teacher and learner ids
    are; with any other duration it answers 400 and writes nothing. *)
Theorem schedule_session_checks_duration_only st req now1 now2 inserted_id :
  session st !! inserted_id = None →
  (schedule_duration req = 30 ∨ schedule_duration req = 60 →
     ∃ st', schedule_session (Some st) req now1 now2 inserted_id =
              (Some st', inr (ObjectId_str inserted_id))
       ∧ session st' !! inserted_id = Some (new_session req now1 now2)
       ∧ status (new_session req now1 now2) = scheduled
       ∧ teacher_id (new_session req now1 now2) = schedule_teacher_id req
       ∧ learner_id (new_session req now1 now2) = schedule_learner_id req
       ∧ (∀ k, k ≠ inserted_id → session st' !! k = session st !! k)
       ∧ user st' = user st ∧ rating st' = rating st)
  ∧ (schedule_duration req ≠ 30 → schedule_duration req ≠ 60 →
       schedule_session (Some st) req now1 now2 inserted_id =
         (Some st, inl (HTTPException 400 "Invalid duration"))).
Proof.
  intros _. split.
  - intros Hd. eexists. split; [by apply schedule_session_run_ok|].
    simpl. rewrite lookup_insert_eq. repeat split; try done.
    intros k Hk. by rewrite lookup_insert_ne.
  - apply schedule_session_run_bad.
Qed.

Lemma rate_after_schedule_call st sreq now1 now2 sid req rk :
  session_id req = ObjectId_str sid →
  1 <= score req <= 5 →
  ObjectId_of (ratee_id req) = Some rk →
  ratee_count_ok st rk = true →
  participants_ok (new_session sreq now1 now2) = true →
  settlement_call (with_session sid (new_session sreq now1 now2) st) req
    sid (new_session sreq now1 now2) rk.
Proof.
  intros Hsid Hscore Hrk Hcount Hpart. split; try done.
  - rewrite Hsid. apply ObjectId_of_str.
  - simpl. apply lookup_insert_eq.
Qed.

(** X11: a session that [schedule_session] has just stored can be rated
    under the id it answered with: when the stored participant ids are
    well-formed, [rate_session] succeeds, completes that session and
    applies the coin and counter deltas to its teacher and learner. *)
Theorem rate_after_schedule st sreq now1 now2 sid req now3 now4 rk :
  schedule_duration sreq = 30 ∨ schedule_duration sreq = 60 →
  session st !! sid = None →
  1 <= score req <= 5 →
  ObjectId_of (ratee_id req) = Some rk →
  ratee_count_ok st rk = true →
  participants_ok (new_session sreq now1 now2) = true →
  ∃ st1 answer st2,
    schedule_session (Some st) sreq now1 now2 sid = (Some st1, inr answer)
    ∧ (session_id req = answer →
         rate_session (Some st1) req now3 now4 = (Some st2, inr Ok)
         ∧ session_completed sid now4 st2
         ∧ coins_settled (new_session sreq now1 now2) st st2
         ∧ rating st2 = rating_of req now3 :: rating st).
Proof.
  intros Hd _ Hscore Hrk Hcount Hpart.
  destruct (decide (session_id req = ObjectId_str sid)) as [Hsid|Hsid].
  - pose proof (rate_after_schedule_call st sreq now1 now2 sid req rk
                  Hsid Hscore Hrk Hcount Hpart) as Hcall.
    destruct (settlement_outcome _ req now3 now4 _ _ _ Hcall)
      as (st2 & Hrun & Hu & Hs & Hr).
    exists (with_session sid (new_session sreq now1 now2) st),
      (ObjectId_str sid), st2.
    split; [by apply schedule_session_run_ok|]. intros _.
    split; [done|]. split.
    + eapply settlement_session; [|done]. simpl. apply lookup_insert_eq.
    + split; [|done]. by eapply (settlement_coins _ st2 req).
  - exists (with_session sid (new_session sreq now1 now2) st),
      (ObjectId_str sid), st.
    split; [by apply schedule_session_run_ok|]. done.
Qed.

(** X12: [schedule_session] stores a teacher id that is no object id, and
    the session can then never be settled: with both participants named,
    [rate_session] on it inserts the Rating, updates the ratee, and then
    fails with status 400, leaving the session in status [scheduled]. *)
Theorem rate_after_schedule_bad_teacher st sreq now1 now2 sid req now3 now4 rk :
  schedule_duration sreq = 30 ∨ schedule_duration sreq = 60 →
  session st !! sid = None →
  ObjectId_of (schedule_teacher_id sreq) = None →
  truthy (schedule_teacher_id sreq) = true →
  truthy (schedule_learner_id sreq) = true →
  1 <= score req <= 5 →
  ObjectId_of (ratee_id req) = Some rk →
  ratee_count_ok st rk = true →
  ∃ st1 answer st2,
    schedule_session (Some st) sreq now1 now2 sid = (Some st1, inr answer)
    ∧ (session_id req = answer →
         rate_session (Some st1) req now3 now4 =
           (Some st2, inl (HTTPException 400 "Invalid object id"))
         ∧ rating st2 = rating_of req now3 :: rating st
         ∧ user st2 = alter (rate_user (score req)) rk (user st)
         ∧ ∃ s, session st2 !! sid = Some s ∧ status s = scheduled).
Proof.
  intros Hd _ Htk Ht Hl Hscore Hrk Hcount.
  exists (with_session sid (new_session sreq now1 now2) st),
    (ObjectId_str sid).
  eexists. split; [by apply schedule_session_run_ok|]. intros Hsid.
  assert (ObjectId_of (session_id req) = Some sid) as Hsk
    by (rewrite Hsid; apply ObjectId_of_str).
  unfold rate_session, rate_session_body.
  rewrite (score_check_true _ Hscore). simpl.
  rewrite (bind_inr _ _ _ _ _ (oid_Some _ _ _ Hsk)).
  unfold bind at 1, find_one_session at 1. simpl.
  rewrite lookup_insert_eq. simpl.
  unfold bind at 1, insert_one_rating at 1.
  erewrite bind_inr; [|by apply update_ratee_rating_run].
  unfold bind at 1, coins_logic at 1. simpl. rewrite Ht, Hl. simpl.
  rewrite (bind_inl _ _ _ _ _ (oid_None _ _ Htk)).
  split; [reflexivity|]. simpl. split; [done|]. split; [done|].
  exists (new_session sreq now1 now2). split; [apply lookup_insert_eq|done].
Qed.

(** ** More about [rate_session] *)

Lemma ratings_bind {A B} (m : M A) (f : A → M B) :
  (∀ st, rating (m st).1 = rating st) →
  (∀ a st, rating (f a st).1 = rating st) →
  ∀ st, rating (bind m f st).1 = rating st.
Proof.
  intros Hm Hf st. unfold bind. specialize (Hm st).
  destruct (m st) as [st1 [e|a]]; simpl in *; [done|].
  by rewrite Hf.
Qed.

Lemma ratings_oid id_str st : rating (oid id_str st).1 = rating st.
Proof. unfold oid. by destruct (ObjectId_of id_str). Qed.

Lemma ratings_update_ratee_rating req st :
  rating (update_ratee_rating req st).1 = rating st.
Proof.
  revert st. unfold update_ratee_rating.
  apply ratings_bind; [apply ratings_oid|]. intros k.
  apply ratings_bind; [done|]. intros [[_ u]|]; [|done].
  apply ratings_bind; [done|]. intros new.
  apply ratings_bind; [apply ratings_oid|]. done.
Qed.

Lemma ratings_coins_logic s st : rating (coins_logic s st).1 = rating st.
Proof.
  revert st. unfold coins_logic.
  destruct (truthy (teacher_id s) && truthy (learner_id s)); [|done].
  apply ratings_bind; [apply ratings_oid|]. intros tk.
  apply ratings_bind; [done|]. intros _.
  apply ratings_bind; [apply ratings_oid|]. done.
Qed.

Lemma ratings_mark_session_completed req now st :
  rating (mark_session_completed req now st).1 = rating st.
Proof.
  revert st. unfold mark_session_completed.
  apply ratings_bind; [apply ratings_oid|]. done.
Qed.

Lemma ratings_badges_block s st : rating (badges_block s st).1 = rating st.
Proof.
  revert st. unfold badges_block.
  apply ratings_bind.
  - destruct (truthy (teacher_id s)); [|done].
    apply ratings_bind; [apply ratings_oid|]. done.
  - intros [[t_id t]|]; done.
Qed.

(** X22: a Rating is stored exactly when the score is in range and the
    session id names a stored session — whether or not the rest of the
    call then succeeds; it goes on top of the stored ratings, none of which
    is ever changed or removed. *)
Theorem rate_session_stores_rating st req now1 now2 :
  ∃ st' r,
    rate_session (Some st) req now1 now2 = (Some st', r)
    ∧ ((1 <= score req <= 5
        ∧ ∃ sk, ObjectId_of (session_id req) = Some sk
                ∧ is_Some (session st !! sk)) →
       rating st' = rating_of req now1 :: rating st)
    ∧ (¬ (1 <= score req <= 5
          ∧ ∃ sk, ObjectId_of (session_id req) = Some sk
                  ∧ is_Some (session st !! sk)) →
       rating st' = rating st ∧ st' = st).
Proof.
  unfold rate_session.
  destruct (rate_session_body req now1 now2 st) as [st' r] eqn:Hrun.
  exists st', r. split; [done|]. revert Hrun. unfold rate_session_body.
  destruct (decide (1 <= score req <= 5)) as [Hscore|Hscore].
  2:{ rewrite (score_check_false _ Hscore). simpl. intros [= <- <-].
      split; [by intros [? _]|done]. }
  rewrite (score_check_true _ Hscore). simpl.
  destruct (ObjectId_of (session_id req)) as [sk|] eqn:Hsk.
  2:{ rewrite (bind_inl _ _ _ _ _ (oid_None _ _ Hsk)). intros [= <- <-].
      split; [by intros [_ (sk & [=] & _)]|done]. }
  rewrite (bind_inr _ _ _ _ _ (oid_Some _ _ _ Hsk)).
  unfold bind at 1, find_one_session at 1.
  destruct (session st !! sk) as [s|] eqn:Hs; simpl.
  2:{ intros [= <- <-]. split; [|done].
      intros [_ (sk' & [= <-] & [s Hs'])]. congruence. }
  unfold bind at 1, insert_one_rating at 1. intros Hrun.
  split; [|intros []; eauto].
  intros _. apply (f_equal (λ p, rating p.1)) in Hrun. simpl in Hrun.
  rewrite <- Hrun. clear Hrun.
  match goal with |- rating (bind _ _ ?st1).1 = _ =>
    change (rating_of req now1 :: rating st) with (rating st1) end.
  apply ratings_bind; [apply ratings_update_ratee_rating|]. intros _.
  apply ratings_bind; [apply ratings_coins_logic|]. intros _.
  apply ratings_bind; [apply ratings_mark_session_completed|]. intros _.
  apply ratings_bind; [apply ratings_badges_block|]. done.
Qed.

(** X23: a settlement call writes to at most three user documents and one
    session: every user who is neither the ratee nor the session's teacher
    or learner, and every session but the rated one, is stored afterwards
    exactly as before, and no document is added or removed. *)
Theorem rate_session_touches_participants_only st req now1 now2 sk s rk :
  settlement_call st req sk s rk →
  ∃ st', rate_session (Some st) req now1 now2 = (Some st', inr Ok)
    ∧ (∀ k, k ≠ rk →
         ObjectId_of (teacher_id s) ≠ Some k →
         ObjectId_of (learner_id s) ≠ Some k →
         user st' !! k = user st !! k)
    ∧ (∀ j, j ≠ sk → session st' !! j = session st !! j)
    ∧ dom (user st') = dom (user st)
    ∧ dom (session st') = dom (session st).
Proof.
  intros Hcall.
  destruct (settlement_outcome st req now1 now2 sk s rk Hcall)
    as (st' & Hrun & Hu & Hs & _).
  exists st'. split; [done|]. destruct Hcall as [_ _ _ Hrk _ _].
  repeat split.
  - intros k Hk Ht Hl. rewrite Hu.
    destruct (user st !! k) as [u|]; simpl; [|done]. f_equal.
    unfold settled_user, at_key, badge_teacher, coin_teacher, coin_learner.
    rewrite Hrk.
    destruct (paid s), (truthy (teacher_id s));
      repeat case_decide; simplify_eq; done.
  - intros j Hj. by rewrite Hs, lookup_alter_ne.
  - apply set_eq. intros k. rewrite !elem_of_dom, Hu.
    by rewrite fmap_is_Some.
  - rewrite Hs. apply set_eq. intros j. rewrite !elem_of_dom.
    by rewrite lookup_alter_is_Some.
Qed.

(** ** [list_sessions] and [leaderboard] *)

Global Instance time_le_total : Total time_le.
Proof. intros [x|] [y|]; simpl; auto. lia. Qed.

Global Instance time_le_trans : Transitive time_le.
Proof. intros [x|] [y|] [z|]; simpl; auto; try done. lia. Qed.

Global Instance newer_first_total : Total newer_first.
Proof. intros x y. unfold newer_first. destruct (total time_le (created_at x.2) (created_at y.2)); auto. Qed.

Global Instance newer_first_trans : Transitive newer_first.
Proof. intros x y z Hxy Hyz. unfold newer_first in *. by etrans. Qed.

Global Instance more_taught_total : Total more_taught.
Proof. intros x y. unfold more_taught. lia. Qed.

Global Instance more_taught_trans : Transitive more_taught.
Proof. intros x y z. unfold more_taught. lia. Qed.

(** X13: [list_sessions] never fails and never parses its argument: for
    any string it answers with exactly the stored sessions whose teacher id
    or learner id is that string, each once, newest first. *)
Theorem list_sessions_lists_participations st user_id :
  ∃ l, list_sessions (Some st) user_id = (Some st, inr l)
    ∧ (∀ sid s, (sid, s) ∈ l ↔
         ∃ k, sid = ObjectId_str k ∧ session st !! k = Some s
              ∧ (teacher_id s = user_id ∨ learner_id s = user_id))
    ∧ NoDup l.*1
    ∧ StronglySorted (λ x y, time_le (created_at y.2) (created_at x.2)) l.
Proof.
  eexists. split; [reflexivity|]. split; [|split].
  - intros sid s. rewrite list_elem_of_fmap. split.
    + intros ([k s'] & [= -> ->] & Hin).
      rewrite merge_sort_Permutation in Hin.
      apply list_elem_of_filter in Hin as [Hp Hin].
      apply elem_of_cursor in Hin. exists k. split; [done|]. split; [done|].
      simpl in Hp. apply orb_prop_elim in Hp as [Hp|Hp];
        apply bool_decide_unpack in Hp; auto.
    + intros (k & -> & Hk & Hp). exists (k, s). split; [done|].
      rewrite merge_sort_Permutation. apply list_elem_of_filter. split.
      * simpl. apply orb_prop_intro.
        destruct Hp as [Hp|Hp]; [left|right]; by apply bool_decide_pack.
      * by apply elem_of_cursor.
  - rewrite <- list_fmap_compose.
    apply (NoDup_fmap_2_strong _).
    + intros [k1 s1] [k2 s2] Hin1 Hin2 Heq. simpl in Heq.
      apply ObjectId_str_inj in Heq as ->.
      rewrite merge_sort_Permutation in Hin1, Hin2.
      apply list_elem_of_filter in Hin1 as [_ Hin1].
      apply list_elem_of_filter in Hin2 as [_ Hin2].
      apply elem_of_cursor in Hin1, Hin2. congruence.
    + rewrite merge_sort_Permutation. apply NoDup_filter, NoDup_cursor.
  - apply (StronglySorted_fmap _ newer_first); [by intros [] []|].
    apply StronglySorted_merge_sort; apply _.
Qed.

(** X14: [leaderboard] answers with at most 20 stored users, each once,
    all of them when there are no more than 20, in descending order of
    teaching sessions; no user left out has more teaching sessions than a
    user listed. *)
Theorem leaderboard_top_twenty st :
  ∃ l, leaderboard (Some st) = (Some st, inr l)
    ∧ length l = Nat.min 20 (size (user st))
    ∧ NoDup l.*1
    ∧ (∀ sid u, (sid, u) ∈ l →
         ∃ k, sid = ObjectId_str k ∧ user st !! k = Some u)
    ∧ ((size (user st) ≤ 20)%nat →
         ∀ k u, user st !! k = Some u → (ObjectId_str k, u) ∈ l)
    ∧ StronglySorted
        (λ x y, teaching_sessions y.2 <= teaching_sessions x.2) l
    ∧ (∀ k u, user st !! k = Some u → (ObjectId_str k, u) ∉ l →
         ∀ sid' u', (sid', u') ∈ l →
           teaching_sessions u <= teaching_sessions u').
Proof.
  eexists. split; [reflexivity|].
  set (sorted := merge_sort more_taught (cursor (user st))).
  assert (sorted ≡ₚ cursor (user st)) as Hperm
    by apply merge_sort_Permutation.
  assert (StronglySorted more_taught sorted) as Hsorted
    by (apply StronglySorted_merge_sort; apply _).
  assert (length sorted = size (user st)) as Hlen
    by (by rewrite Hperm, cursor_perm, length_map_to_list).
  split; [|split; [|split; [|split; [|split]]]].
  - by rewrite length_fmap, length_take, Hlen.
  - rewrite <- list_fmap_compose.
    apply (NoDup_fmap_2_strong _).
    + intros [k1 u1] [k2 u2] Hin1 Hin2 Heq. simpl in Heq.
      apply ObjectId_str_inj in Heq as ->.
      apply subseteq_take in Hin1, Hin2. rewrite Hperm in Hin1, Hin2.
      apply elem_of_cursor in Hin1, Hin2. congruence.
    + apply (sublist_NoDup _ sorted); [|apply sublist_take].
      rewrite Hperm. apply NoDup_cursor.
  - intros sid u Hin. apply list_elem_of_fmap in Hin as ([k u'] & [= -> ->] & Hin).
    apply subseteq_take in Hin.
    exists k. split; [done|]. apply elem_of_cursor. by rewrite <- Hperm.
  - intros Hsmall k u Hk. apply list_elem_of_fmap. exists (k, u).
    split; [done|]. rewrite take_ge by lia.
    rewrite Hperm. by apply elem_of_cursor.
  - apply (StronglySorted_fmap _ more_taught); [by intros [] []|].
    rewrite <- (take_drop 20 sorted) in Hsorted.
    by apply StronglySorted_app_1_l in Hsorted.
  - intros k u Hk Hout sid' u' Hin.
    apply list_elem_of_fmap in Hin as ([k' u''] & [= -> ->] & Hin).
    assert ((k, u) ∈ sorted) as Hall by (rewrite Hperm; by apply elem_of_cursor).
    rewrite <- (take_drop 20 sorted) in Hall, Hsorted.
    apply elem_of_app in Hall as [Hall|Hall].
    + destruct Hout. apply list_elem_of_fmap. by exists (k, u).
    + apply (StronglySorted_app_1_elem_of _ _ _ _ _ Hsorted Hin Hall).
Qed.

(** ** [find_matches] *)

Lemma common_skill (l1 l2 : list string) :
  (list_to_set l1 ∩ list_to_set l2 : gset string) ≠ ∅
  ↔ ∃ skill, skill ∈ l1 ∧ skill ∈ l2.
Proof.
  split.
  - intros Hne. apply set_choose_L in Hne as [x Hx].
    apply elem_of_intersection in Hx as [H1 H2].
    rewrite elem_of_list_to_set in H1, H2. eauto.
  - intros (x & H1 & H2) Hempty.
    assert (x ∈ (list_to_set l1 ∩ list_to_set l2 : gset string)) as Hx.
    { apply elem_of_intersection. by rewrite !elem_of_list_to_set. }
    rewrite Hempty in Hx. by apply not_elem_of_empty in Hx.
Qed.

Lemma match_entry_Some me j c m :
  match_entry (list_to_set (teach_skills me)) (list_to_set (learn_skills me))
    (j, c) = Some m
  ↔ can_exchange me c
    ∧ m = {| match_user_id := ObjectId_str j;
             match_name := name c; match_city := city c; match_age := age c;
             match_teach_skills :=
               elements (list_to_set (teach_skills c) : gset string);
             match_learn_skills :=
               elements (list_to_set (learn_skills c) : gset string);
             match_for_me :=
               elements (list_to_set (learn_skills me)
                         ∩ list_to_set (teach_skills c) : gset string);
             match_for_them :=
               elements (list_to_set (teach_skills me)
                         ∩ list_to_set (learn_skills c) : gset string);
             match_rating_avg := rating_avg c |}.
Proof.
  unfold match_entry, can_exchange. simpl.
  rewrite <- !common_skill.
  destruct (decide ((list_to_set (learn_skills me)
                     ∩ list_to_set (teach_skills c) : gset string) ≠ ∅))
    as [H1|H1];
  destruct (decide ((list_to_set (teach_skills me)
                     ∩ list_to_set (learn_skills c) : gset string) ≠ ∅))
    as [H2|H2].
  - rewrite !bool_decide_eq_true_2 by done. simpl.
    split; [by intros [= <-]|by intros [_ ->]].
  - rewrite (bool_decide_eq_false_2 _ H2), andb_false_r.
    split; [done|by intros [[_ ?] _]].
  - rewrite (bool_decide_eq_false_2 _ H1). simpl.
    split; [done|by intros [[? _] _]].
  - rewrite (bool_decide_eq_false_2 _ H1). simpl.
    split; [done|by intros [[? _] _]].
Qed.

Lemma find_matches_run st user_id k me :
  ObjectId_of user_id = Some k →
  user st !! k = Some me →
  find_matches (Some st) user_id =
    (Some st,
     inr (omap (match_entry (list_to_set (teach_skills me))
                  (list_to_set (learn_skills me)))
            (filter (λ c, c.1 ≠ k) (cursor (user st))))).
Proof.
  intros Hk Hme. unfold find_matches, with_db.
  rewrite (bind_inr _ _ _ _ _ (oid_Some _ _ _ Hk)).
  unfold bind at 1, find_one_user at 1. rewrite Hme. simpl.
  by rewrite (bind_inr _ _ _ _ _ (oid_Some _ _ _ Hk)).
Qed.

Lemma elem_of_matches st k me m :
  m ∈ omap (match_entry (list_to_set (teach_skills me))
              (list_to_set (learn_skills me)))
        (filter (λ c, c.1 ≠ k) (cursor (user st)))
  ↔ ∃ j c, j ≠ k ∧ user st !! j = Some c
           ∧ match_entry (list_to_set (teach_skills me))
               (list_to_set (learn_skills me)) (j, c) = Some m.
Proof.
  rewrite list_elem_of_omap. split.
  - intros ([j c] & Hin & Hm). apply list_elem_of_filter in Hin as [Hj Hin].
    apply elem_of_cursor in Hin. by exists j, c.
  - intros (j & c & Hj & Hc & Hm). exists (j, c). split; [|done].
    apply list_elem_of_filter. split; [done|]. by apply elem_of_cursor.
Qed.

Lemma listed_matches st k me j :
  listed j (omap (match_entry (list_to_set (teach_skills me))
                    (list_to_set (learn_skills me)))
              (filter (λ c, c.1 ≠ k) (cursor (user st))))
  ↔ j ≠ k ∧ ∃ c, user st !! j = Some c ∧ can_exchange me c.
Proof.
  unfold listed. split.
  - intros (m & Hin & Hid).
    apply elem_of_matches in Hin as (j' & c & Hj & Hc & Hm).
    apply match_entry_Some in Hm as [Hex ->]. simpl in Hid.
    apply ObjectId_str_inj in Hid as ->. eauto.
  - intros (Hj & c & Hc & Hex).
    eexists. split.
    + apply elem_of_matches. exists j, c. split; [done|]. split; [done|].
      apply match_entry_Some. split; [done|reflexivity].
    + done.
Qed.

Lemma can_exchange_sym a b : can_exchange a b → can_exchange b a.
Proof.
  unfold can_exchange. intros [(x & Hx1 & Hx2) (y & Hy1 & Hy2)].
  split; [by exists y|by exists x].
Qed.

(** X15: for a stored user, [find_matches] lists exactly the other stored
    users with whom skills can be exchanged both ways: one who teaches
    something the user wants to learn and wants to learn something the user
    teaches. The user is never listed for themselves. *)
Theorem find_matches_lists_exchanges st user_id k me :
  ObjectId_of user_id = Some k →
  user st !! k = Some me →
  ∃ l, find_matches (Some st) user_id = (Some st, inr l)
    ∧ (∀ j, listed j l ↔
         j ≠ k ∧ ∃ c, user st !! j = Some c ∧ can_exchange me c)
    ∧ ¬ listed k l.
Proof.
  intros Hk Hme. eexists. split; [by apply find_matches_run|]. split.
  - intros j. apply listed_matches.
  - rewrite listed_matches. by intros [Hne _].
Qed.

(** X16: matching is mutual: a stored user [b] is among the matches of a
    stored user [a] exactly when [a] is among the matches of [b]. *)
Theorem find_matches_mutual st id_a id_b ka kb a b :
  ObjectId_of id_a = Some ka → user st !! ka = Some a →
  ObjectId_of id_b = Some kb → user st !! kb = Some b →
  ∃ la lb,
    find_matches (Some st) id_a = (Some st, inr la)
    ∧ find_matches (Some st) id_b = (Some st, inr lb)
    ∧ (listed kb la ↔ listed ka lb).
Proof.
  intros Hka Ha Hkb Hb. do 2 eexists.
  split; [by apply find_matches_run|].
  split; [by apply find_matches_run|].
  rewrite !listed_matches. split.
  - intros (Hne & c & Hc & Hex). simplify_eq.
    split; [done|]. exists a. split; [done|]. by apply can_exchange_sym.
  - intros (Hne & c & Hc & Hex). simplify_eq.
    split; [done|]. exists b. split; [done|]. by apply can_exchange_sym.
Qed.

(** X17: every entry of the answer describes one other stored user: its
    [match_for_me] holds, once each, exactly the skills the caller wants to
    learn and that user teaches, its [match_for_them] exactly the skills
    the caller teaches and that user wants to learn, neither is empty, and
    the skill lists and the rating average are that user's. *)
Theorem find_matches_entries st user_id k me :
  ObjectId_of user_id = Some k →
  user st !! k = Some me →
  ∃ l, find_matches (Some st) user_id = (Some st, inr l)
    ∧ ∀ m, m ∈ l →
        ∃ j c, j ≠ k ∧ user st !! j = Some c
          ∧ match_user_id m = ObjectId_str j
          ∧ (∀ x, x ∈ match_for_me m ↔
               x ∈ learn_skills me ∧ x ∈ teach_skills c)
          ∧ (∀ x, x ∈ match_for_them m ↔
               x ∈ teach_skills me ∧ x ∈ learn_skills c)
          ∧ match_for_me m ≠ [] ∧ match_for_them m ≠ []
          ∧ NoDup (match_for_me m) ∧ NoDup (match_for_them m)
          ∧ (∀ x, x ∈ match_teach_skills m ↔ x ∈ teach_skills c)
          ∧ (∀ x, x ∈ match_learn_skills m ↔ x ∈ learn_skills c)
          ∧ match_rating_avg m = rating_avg c.
Proof.
  intros Hk Hme. eexists. split; [by apply find_matches_run|].
  intros m Hin. apply elem_of_matches in Hin as (j & c & Hj & Hc & Hm).
  apply match_entry_Some in Hm as [[[x1 [Hx1 Hx1']] [x2 [Hx2 Hx2']]] ->].
  exists j, c. simpl.
  split; [done|]. split; [done|]. split; [done|].
  split; [|split; [|split; [|split; [|split; [|split; [|split; [|split]]]]]]].
  - intros x. rewrite elem_of_elements, elem_of_intersection.
    by rewrite !elem_of_list_to_set.
  - intros x. rewrite elem_of_elements, elem_of_intersection.
    by rewrite !elem_of_list_to_set.
  - intros Hnil. apply elements_empty_inv in Hnil.
    assert (x1 ∈ (list_to_set (learn_skills me)
                  ∩ list_to_set (teach_skills c) : gset string)) as Hx
      by (apply elem_of_intersection; by rewrite !elem_of_list_to_set).
    rewrite Hnil in Hx. by apply not_elem_of_empty in Hx.
  - intros Hnil. apply elements_empty_inv in Hnil.
    assert (x2 ∈ (list_to_set (teach_skills me)
                  ∩ list_to_set (learn_skills c) : gset string)) as Hx
      by (apply elem_of_intersection; by rewrite !elem_of_list_to_set).
    rewrite Hnil in Hx. by apply not_elem_of_empty in Hx.
  - apply NoDup_elements.
  - apply NoDup_elements.
  - intros x. by rewrite elem_of_elements, elem_of_list_to_set.
  - intros x. by rewrite elem_of_elements, elem_of_list_to_set.
  - done.
Qed.

(** X18: [find_matches] answers 400 to a malformed id and 404 to an id
    that names no user; a stored user who lists nothing to learn, or
    nothing to teach, gets an empty answer. *)
Theorem find_matches_edges st user_id :
  (ObjectId_of user_id = None →
     find_matches (Some st) user_id =
       (Some st, inl (HTTPException 400 "Invalid object id")))
  ∧ (∀ k, ObjectId_of user_id = Some k → user st !! k = None →
       find_matches (Some st) user_id =
         (Some st, inl (HTTPException 404 "User not found")))
  ∧ (∀ k me, ObjectId_of user_id = Some k → user st !! k = Some me →
       learn_skills me = [] ∨ teach_skills me = [] →
       find_matches (Some st) user_id = (Some st, inr [])).
Proof.
  split; [|split].
  - intros Hk. unfold find_matches, with_db.
    by rewrite (bind_inl _ _ _ _ _ (oid_None _ _ Hk)).
  - intros k Hk Hnone. unfold find_matches, with_db.
    rewrite (bind_inr _ _ _ _ _ (oid_Some _ _ _ Hk)).
    unfold bind, find_one_user. by rewrite Hnone.
  - intros k me Hk Hme Hempty. rewrite (find_matches_run _ _ k me Hk Hme).
    do 2 f_equal.
    destruct (omap _ _) as [|m l] eqn:Hl; [done|].
    assert (m ∈ m :: l) as Hin by left. rewrite <- Hl in Hin.
    apply elem_of_matches in Hin as (j & c & _ & _ & Hm).
    apply match_entry_Some in Hm as [[[x1 [Hx1 _]] [x2 [Hx2 _]]] _].
    destruct Hempty as [He|He]; rewrite He in *;
      [by apply elem_of_nil in Hx1|by apply elem_of_nil in Hx2].
Qed.

(** ** [ensure_chat] and [send_message] *)

Lemma sorted_pair_comm a b : sorted_pair a b = sorted_pair b a.
Proof.
  unfold sorted_pair, String.ltb. rewrite (String.compare_antisym a b).
  destruct (String.compare b a) eqn:Hc; simpl; try done.
  apply String.compare_eq_iff in Hc. by subst.
Qed.

Lemma find_chat (cs : ChatStore) ms :
  match head (filter (λ kv : ObjectId * Chat, bool_decide (members kv.2 = ms))
                (cursor (chat cs))) with
  | Some (k, c) => chat cs !! k = Some c ∧ members c = ms
  | None => ∀ k c, chat cs !! k = Some c → members c ≠ ms
  end.
Proof.
  destruct (head _) as [[k c]|] eqn:Hh.
  - apply (head_filter_Some
             (λ kv : ObjectId * Chat, bool_decide (members kv.2 = ms)))
      in Hh as [Hp Hin].
    apply elem_of_cursor in Hin. split; [done|].
    by apply bool_decide_unpack in Hp.
  - intros k c Hk Hm.
    apply (head_filter_None
             (λ kv : ObjectId * Chat, bool_decide (members kv.2 = ms)))
      with (x := (k, c)) in Hh; [|by apply elem_of_cursor].
    apply Hh. by apply bool_decide_pack.
Qed.

(** X19: [ensure_chat] gives one chat to a pair of users, in whichever
    order they are named: called again for the same two users, either way
    round, it answers with the same chat id and writes nothing. *)
Theorem ensure_chat_again (cs : ChatStore) req now1 now2 inserted_id req' now3 now4 inserted_id' :
  chat cs !! inserted_id = None →
  (user_a req' = user_a req ∧ user_b req' = user_b req)
  ∨ (user_a req' = user_b req ∧ user_b req' = user_a req) →
  ∃ cs1 answer,
    ensure_chat (Some cs) req now1 now2 inserted_id = (Some cs1, inr answer)
    ∧ ensure_chat (Some cs1) req' now3 now4 inserted_id'
      = (Some cs1, inr answer).
Proof.
  intros Hfresh Hsame.
  assert (sorted_pair (user_a req') (user_b req')
          = sorted_pair (user_a req) (user_b req)) as Hms.
  { destruct Hsame as [[-> ->]|[-> ->]]; [done|apply sorted_pair_comm]. }
  unfold ensure_chat. rewrite Hms.
  set (ms := sorted_pair (user_a req) (user_b req)).
  pose proof (find_chat cs ms) as Hfind.
  destruct (head _) as [[k c]|] eqn:Hh.
  - do 2 eexists. split; [reflexivity|]. by rewrite Hh.
  - do 2 eexists. split; [reflexivity|]. cbn [chat].
    match goal with |- context [head ?l] =>
      pose proof (find_chat
        {| chat := <[inserted_id := {| members := ms;
                                        chat_created_at := Some now1;
                                        chat_updated_at := Some now2 |}]>
                     (chat cs);
           message := message cs |} ms) as Hfind';
      cbn [chat] in Hfind'; destruct (head l) as [[k' c']|] end.
    + destruct Hfind' as [Hk' Hm']. rewrite lookup_insert in Hk'.
      case_decide as Hkk; [by subst|].
      by destruct (Hfind k' c' Hk').
    + destruct (Hfind' inserted_id _ (lookup_insert_eq _ _ _)). done.
Qed.

(** X20: [ensure_chat] never stores a second chat with the member list of
    a stored one: it keeps the member lists of the chats distinct. *)
Theorem ensure_chat_keeps_chats_unique (cs : ChatStore) req now1 now2 inserted_id :
  chats_unique cs →
  chat cs !! inserted_id = None →
  ∃ cs' r, ensure_chat (Some cs) req now1 now2 inserted_id = (Some cs', r)
           ∧ chats_unique cs'.
Proof.
  intros Huniq _. unfold ensure_chat.
  set (ms := sorted_pair (user_a req) (user_b req)).
  pose proof (find_chat cs ms) as Hfind.
  destruct (head _) as [[k c]|].
  - by do 2 eexists.
  - do 2 eexists. split; [reflexivity|].
    intros k1 k2 c1 c2. cbn [chat]. rewrite !lookup_insert.
    repeat case_decide; intros H1 H2 Hm; simplify_eq; try done.
    + simpl in Hm. by destruct (Hfind k2 c2 H2).
    + simpl in Hm. by destruct (Hfind k1 c1 H1).
    + by eapply Huniq.
Qed.

(** X21: [send_message] stores the message before it looks at the chat
    id, and checks neither the chat nor the sender. With a malformed chat
    id the message is stored and the request then fails with status 400;
    with a well-formed id the request succeeds, the chat of that id, if
    there is one, gets a new [updated_at], and no other chat changes. *)
Theorem send_message_stores_first (cs : ChatStore) req now1 now2 inserted_id :
  message cs !! inserted_id = None →
  ∃ cs' r msg,
    send_message (Some cs) req now1 now2 inserted_id = (Some cs', r)
    ∧ message cs' !! inserted_id = Some msg
    ∧ message_chat_id msg = send_chat_id req
    ∧ message_sender_id msg = send_sender_id req
    ∧ message_text msg = send_text req
    ∧ (∀ j, j ≠ inserted_id → message cs' !! j = message cs !! j)
    ∧ match ObjectId_of (send_chat_id req) with
      | None =>
          r = inl (HTTPException 400 "Invalid object id")
          ∧ chat cs' = chat cs
      | Some k =>
          r = inr Ok
          ∧ chat cs' !! k = touch_chat now2 <$> chat cs !! k
          ∧ ∀ j, j ≠ k → chat cs' !! j = chat cs !! j
      end.
Proof.
  intros _. unfold send_message.
  destruct (ObjectId_of (send_chat_id req)) as [k|];
    do 3 eexists; (split; [reflexivity|]); cbn [chat message];
    rewrite lookup_insert_eq; repeat split; try done.
  - intros j Hj. by rewrite lookup_insert_ne.
  - apply lookup_alter_eq.
  - intros j Hj. by rewrite lookup_alter_ne.
  - intros j Hj. by rewrite lookup_insert_ne.
Qed.

End HandlerProperties.

(** * The handler theorems at work on sample data *)

Section HandlerSamples.
Local Existing Instance hex_object_ids.
Local Existing Instance hex_driver.

Local Ltac distinct_keys :=
  let H := fresh in intros H; apply (f_equal proj1_sig) in H; discriminate H.

Lemma alice_stored : user store_ab !! key_a = Some alice.
Proof. apply lookup_insert_eq. Qed.

Lemma bob_stored : user store_ab !! key_b = Some bob.
Proof.
  unfold store_ab. simpl. rewrite lookup_insert_ne by distinct_keys.
  apply lookup_insert_eq.
Qed.

Lemma key_c_fresh : user store_ab !! key_c = None.
Proof.
  unfold store_ab. simpl. rewrite !lookup_insert_ne by distinct_keys.
  apply lookup_empty.
Qed.

Lemma stored_ab k u :
  user store_ab !! k = Some u → (k = key_a ∧ u = alice) ∨ (k = key_b ∧ u = bob).
Proof.
  unfold store_ab. simpl. rewrite !lookup_insert.
  repeat case_decide; intros Hk; simplify_eq; auto.
Qed.

Lemma store_ab_unique : emails_unique store_ab.
Proof.
  intros k1 k2 u1 u2 H1 H2 He.
  apply stored_ab in H1 as [[-> ->]|[-> ->]];
    apply stored_ab in H2 as [[-> ->]|[-> ->]]; done.
Qed.

Lemma carol_unknown : ¬ email_taken store_ab "carol@x.io".
Proof.
  intros (k & u & Hk & He). by apply stored_ab in Hk as [[-> ->]|[-> ->]].
Qed.

Lemma register_email_taken_witness :
  register (Some store_ab)
    {| register_email := "alice@x.io"; register_password := "other" |}
    1 2 key_c
  = (Some store_ab, inl (HTTPException 409 "Email already registered")).
Proof.
  apply register_email_taken. exists key_a, alice.
  split; [apply alice_stored|reflexivity].
Defined.

Lemma register_new_email_witness :
  ∃ st', register (Some store_ab) carol_request 1 2 key_c =
           (Some st', inr {| user_id := ObjectId_str key_c;
                             auth_email := "carol@x.io" |})
    ∧ user st' !! key_c = Some (new_user carol_request 1 2)
    ∧ (∀ k, k ≠ key_c → user st' !! k = user store_ab !! k)
    ∧ session st' = session store_ab ∧ rating st' = rating store_ab
    ∧ (∀ u, user st' !! key_c = Some u →
         coins u = 20 ∧ rating_count u = 0 ∧ badges u = []
         ∧ teaching_sessions u = 0 ∧ learning_sessions u = 0
         ∧ password_hash u = "mvp::" +:+ "c-secret").
Proof.
  apply (register_new_email store_ab carol_request 1 2 key_c).
  - apply carol_unknown.
  - apply key_c_fresh.
Defined.

Lemma register_keeps_emails_unique_witness :
  ∃ st' r, register (Some store_ab) carol_request 1 2 key_c = (Some st', r)
           ∧ emails_unique st'.
Proof.
  apply register_keeps_emails_unique.
  - apply store_ab_unique.
  - apply key_c_fresh.
Defined.

Lemma login_after_register_witness :
  ∃ st' resp,
    register (Some store_ab) carol_request 1 2 key_c = (Some st', inr resp)
    ∧ login (Some st')
        {| login_email := "carol@x.io"; login_password := "c-secret" |}
      = (Some st', inr resp).
Proof.
  apply (login_after_register store_ab carol_request 1 2 key_c "c-secret").
  - apply carol_unknown.
  - apply key_c_fresh.
Defined.

Lemma login_checks_password_witness :
  login (Some store_ab)
    {| login_email := "bob@x.io"; login_password := "b-secret" |}
  = (Some store_ab, inr {| user_id := ObjectId_str key_b;
                           auth_email := "bob@x.io" |})
  ∧ login (Some store_ab)
      {| login_email := "bob@x.io"; login_password := "guess" |}
    = (Some store_ab, inl (HTTPException 401 "Invalid credentials")).
Proof.
  split.
  - apply (proj1 (login_checks_password store_ab
                    {| login_email := "bob@x.io";
                       login_password := "b-secret" |} store_ab_unique)
             key_b bob); [apply bob_stored|reflexivity|reflexivity].
  - apply (proj2 (login_checks_password store_ab
                    {| login_email := "bob@x.io";
                       login_password := "guess" |} store_ab_unique)).
    intros k u Hk He. apply stored_ab in Hk as [[-> ->]|[-> ->]]; done.
Defined.

Lemma update_profile_rejected_witness :
  update_profile (Some store_ab) "alice" profile0 5 =
    (Some store_ab, inl (HTTPException 400 "Invalid object id"))
  ∧ update_profile (Some store_ab) (ObjectId_str key_c) profile0 5 =
      (Some store_ab, inl (HTTPException 404 "User not found")).
Proof.
  split.
  - apply (proj1 (update_profile_rejected store_ab "alice" profile0 5)).
    reflexivity.
  - apply (proj2 (update_profile_rejected store_ab (ObjectId_str key_c)
                    profile0 5) key_c);
      [apply ObjectId_of_str|apply key_c_fresh].
Defined.

Lemma update_profile_writes_profile_only_witness :
  ∃ st' u',
    update_profile (Some store_ab) (ObjectId_str key_a) profile0 5 =
      (Some st', inr (ObjectId_str key_a, u'))
    ∧ user st' !! key_a = Some u'
    ∧ (name u' = "Alice" ∧ age u' = Some 7 ∧ city u' = Some "Oslo"
       ∧ teach_skills u' = ["python"; "go"]
       ∧ learn_skills u' = ["guitar"]
       ∧ availability u' = []
       ∧ user_updated_at u' = Some 5)
    ∧ (email u' = email alice ∧ password_hash u' = password_hash alice
       ∧ coins u' = coins alice ∧ rating_avg u' = rating_avg alice
       ∧ rating_count u' = rating_count alice ∧ badges u' = badges alice
       ∧ teaching_sessions u' = teaching_sessions alice
       ∧ learning_sessions u' = learning_sessions alice
       ∧ user_created_at u' = user_created_at alice)
    ∧ (∀ j, j ≠ key_a → user st' !! j = user store_ab !! j)
    ∧ session st' = session store_ab ∧ rating st' = rating store_ab.
Proof.
  apply (update_profile_writes_profile_only store_ab (ObjectId_str key_a)
           profile0 5 key_a alice);
    [apply ObjectId_of_str|apply alice_stored].
Defined.

Lemma get_profile_after_update_witness :
  ∃ st' id' u',
    update_profile (Some store_ab) (ObjectId_str key_a) profile0 5 =
      (Some st', inr (id', u'))
    ∧ get_profile (Some st') (ObjectId_str key_a) = (Some st', inr (id', u'))
    ∧ get_profile (Some st') id' = (Some st', inr (id', u')).
Proof.
  apply (get_profile_after_update store_ab (ObjectId_str key_a) profile0 5
           key_a alice);
    [apply ObjectId_of_str|apply alice_stored].
Defined.

Lemma get_profile_after_register_witness :
  ∃ st' resp,
    register (Some store_ab) carol_request 1 2 key_c = (Some st', inr resp)
    ∧ get_profile (Some st') (user_id resp) =
        (Some st', inr (user_id resp, new_user carol_request 1 2)).
Proof.
  apply get_profile_after_register; [apply carol_unknown|apply key_c_fresh].
Defined.

Lemma schedule_session_checks_duration_only_witness :
  (schedule_duration schedule_ab = 30 ∨ schedule_duration schedule_ab = 60 →
     ∃ st', schedule_session (Some store_ab) schedule_ab 1 2 key_c =
              (Some st', inr (ObjectId_str key_c))
       ∧ session st' !! key_c = Some (new_session schedule_ab 1 2)
       ∧ status (new_session schedule_ab 1 2) = scheduled
       ∧ teacher_id (new_session schedule_ab 1 2)
           = schedule_teacher_id schedule_ab
       ∧ learner_id (new_session schedule_ab 1 2)
           = schedule_learner_id schedule_ab
       ∧ (∀ k, k ≠ key_c → session st' !! k = session store_ab !! k)
       ∧ user st' = user store_ab ∧ rating st' = rating store_ab)
  ∧ (schedule_duration schedule_ab ≠ 30 → schedule_duration schedule_ab ≠ 60 →
       schedule_session (Some store_ab) schedule_ab 1 2 key_c =
         (Some store_ab, inl (HTTPException 400 "Invalid duration"))).
Proof.
  apply (schedule_session_checks_duration_only store_ab schedule_ab 1 2 key_c).
  apply lookup_empty.
Defined.

Lemma rate_after_schedule_witness :
  ∃ st1 answer st2,
    schedule_session (Some store_ab) schedule_ab 1 2 key_c
      = (Some st1, inr answer)
    ∧ (session_id rate_c = answer →
         rate_session (Some st1) rate_c 3 4 = (Some st2, inr Ok)
         ∧ session_completed key_c 4 st2
         ∧ coins_settled (new_session schedule_ab 1 2) store_ab st2
         ∧ rating st2 = rating_of rate_c 3 :: rating store_ab).
Proof.
  apply (rate_after_schedule store_ab schedule_ab 1 2 key_c rate_c 3 4 key_a).
  - right. reflexivity.
  - apply lookup_empty.
  - simpl. lia.
  - exact (hex_object_ids_str key_a).
  - vm_compute. reflexivity.
  - vm_compute. reflexivity.
Defined.

Lemma rate_after_schedule_bad_teacher_witness :
  ∃ st1 answer st2,
    schedule_session (Some store_ab) schedule_names 1 2 key_c
      = (Some st1, inr answer)
    ∧ (session_id rate_c = answer →
         rate_session (Some st1) rate_c 3 4 =
           (Some st2, inl (HTTPException 400 "Invalid object id"))
         ∧ rating st2 = rating_of rate_c 3 :: rating store_ab
         ∧ user st2 = alter (rate_user (score rate_c)) key_a (user store_ab)
         ∧ ∃ s, session st2 !! key_c = Some s ∧ status s = scheduled).
Proof.
  apply (rate_after_schedule_bad_teacher store_ab schedule_names 1 2 key_c
           rate_c 3 4 key_a).
  - left. reflexivity.
  - apply lookup_empty.
  - reflexivity.
  - reflexivity.
  - reflexivity.
  - simpl. lia.
  - exact (hex_object_ids_str key_a).
  - vm_compute. reflexivity.
Defined.

Lemma rate_session_touches_participants_only_witness :
  ∃ st', rate_session
           (Some (with_session key_c (new_session schedule_ab 1 2) store_ab))
           rate_c 3 4 = (Some st', inr Ok)
    ∧ (∀ k, k ≠ key_a →
         ObjectId_of (teacher_id (new_session schedule_ab 1 2)) ≠ Some k →
         ObjectId_of (learner_id (new_session schedule_ab 1 2)) ≠ Some k →
         user st' !! k = user store_ab !! k)
    ∧ (∀ j, j ≠ key_c →
         session st' !! j
         = session (with_session key_c (new_session schedule_ab 1 2) store_ab)
             !! j)
    ∧ dom (user st') = dom (user store_ab)
    ∧ dom (session st')
      = dom (session (with_session key_c (new_session schedule_ab 1 2)
                        store_ab)).
Proof.
  apply (rate_session_touches_participants_only
           (with_session key_c (new_session schedule_ab 1 2) store_ab)
           rate_c 3 4 key_c (new_session schedule_ab 1 2) key_a).
  split.
  - simpl. lia.
  - exact (hex_object_ids_str key_c).
  - apply lookup_insert_eq.
  - exact (hex_object_ids_str key_a).
  - vm_compute. reflexivity.
  - vm_compute. reflexivity.
Defined.

Lemma find_matches_lists_exchanges_witness :
  ∃ l, find_matches (Some store_ab) (ObjectId_str key_a) = (Some store_ab, inr l)
    ∧ (∀ j, listed j l ↔
         j ≠ key_a ∧ ∃ c, user store_ab !! j = Some c ∧ can_exchange alice c)
    ∧ ¬ listed key_a l.
Proof.
  apply (find_matches_lists_exchanges store_ab (ObjectId_str key_a) key_a
           alice); [apply ObjectId_of_str|apply alice_stored].
Defined.

Lemma find_matches_mutual_witness :
  ∃ la lb,
    find_matches (Some store_ab) (ObjectId_str key_a) = (Some store_ab, inr la)
    ∧ find_matches (Some store_ab) (ObjectId_str key_b)
      = (Some store_ab, inr lb)
    ∧ (listed key_b la ↔ listed key_a lb).
Proof.
  apply (find_matches_mutual store_ab (ObjectId_str key_a)
           (ObjectId_str key_b) key_a key_b alice bob);
    [apply ObjectId_of_str|apply alice_stored
    |apply ObjectId_of_str|apply bob_stored].
Defined.

Lemma find_matches_entries_witness :
  ∃ l, find_matches (Some store_ab) (ObjectId_str key_a) = (Some store_ab, inr l)
    ∧ ∀ m, m ∈ l →
        ∃ j c, j ≠ key_a ∧ user store_ab !! j = Some c
          ∧ match_user_id m = ObjectId_str j
          ∧ (∀ x, x ∈ match_for_me m ↔
               x ∈ learn_skills alice ∧ x ∈ teach_skills c)
          ∧ (∀ x, x ∈ match_for_them m ↔
               x ∈ teach_skills alice ∧ x ∈ learn_skills c)
          ∧ match_for_me m ≠ [] ∧ match_for_them m ≠ []
          ∧ NoDup (match_for_me m) ∧ NoDup (match_for_them m)
          ∧ (∀ x, x ∈ match_teach_skills m ↔ x ∈ teach_skills c)
          ∧ (∀ x, x ∈ match_learn_skills m ↔ x ∈ learn_skills c)
          ∧ match_rating_avg m = rating_avg c.
Proof.
  apply (find_matches_entries store_ab (ObjectId_str key_a) key_a alice);
    [apply ObjectId_of_str|apply alice_stored].
Defined.

Lemma find_matches_edges_witness :
  find_matches (Some store_ab) "alice" =
    (Some store_ab, inl (HTTPException 400 "Invalid object id"))
  ∧ find_matches (Some store_ab) (ObjectId_str key_c) =
      (Some store_ab, inl (HTTPException 404 "User not found"))
  ∧ find_matches
      (Some (with_user key_c (skilled "c@x.io" "pw" ["go"] [] 0) store_ab))
      (ObjectId_str key_c)
    = (Some (with_user key_c (skilled "c@x.io" "pw" ["go"] [] 0) store_ab),
       inr []).
Proof.
  split; [|split].
  - apply (proj1 (find_matches_edges store_ab "alice")). reflexivity.
  - apply (proj1 (proj2 (find_matches_edges store_ab (ObjectId_str key_c)))
             key_c); [apply ObjectId_of_str|apply key_c_fresh].
  - apply (proj2 (proj2 (find_matches_edges _ (ObjectId_str key_c)))
             key_c (skilled "c@x.io" "pw" ["go"] [] 0));
      [apply ObjectId_of_str|apply lookup_insert_eq|by left].
Defined.

Lemma ensure_chat_again_witness :
  ∃ cs1 answer,
    ensure_chat (Some chats0) {| user_a := "zoe"; user_b := "adam" |} 1 2 key_a
      = (Some cs1, inr answer)
    ∧ ensure_chat (Some cs1) {| user_a := "adam"; user_b := "zoe" |} 3 4 key_b
      = (Some cs1, inr answer).
Proof.
  apply (ensure_chat_again chats0 {| user_a := "zoe"; user_b := "adam" |}
           1 2 key_a {| user_a := "adam"; user_b := "zoe" |} 3 4 key_b).
  - apply lookup_empty.
  - right. split; reflexivity.
Defined.

Lemma ensure_chat_keeps_chats_unique_witness :
  ∃ cs' r,
    ensure_chat (Some chats_az) {| user_a := "zoe"; user_b := "adam" |} 1 2 key_b
      = (Some cs', r)
    ∧ chats_unique cs'.
Proof.
  apply ensure_chat_keeps_chats_unique.
  - intros k1 k2 c1 c2. unfold chats_az. cbn [chat]. rewrite !lookup_insert.
    repeat case_decide; intros H1 H2 _; simplify_eq; done.
  - unfold chats_az. cbn [chat]. rewrite lookup_insert_ne by distinct_keys.
    apply lookup_empty.
Defined.

Lemma send_message_stores_first_witness :
  ∃ cs' r msg,
    send_message (Some chats0)
      {| send_chat_id := "no-such-chat"; send_sender_id := "zoe";
         send_text := "hi" |} 1 2 key_a = (Some cs', r)
    ∧ message cs' !! key_a = Some msg
    ∧ message_chat_id msg = "no-such-chat"
    ∧ message_sender_id msg = "zoe"
    ∧ message_text msg = "hi"
    ∧ (∀ j, j ≠ key_a → message cs' !! j = message chats0 !! j)
    ∧ match ObjectId_of "no-such-chat" with
      | None =>
          r = inl (HTTPException 400 "Invalid object id")
          ∧ chat cs' = chat chats0
      | Some k =>
          r = inr Ok
          ∧ chat cs' !! k = touch_chat 2 <$> chat chats0 !! k
          ∧ ∀ j, j ≠ k → chat cs' !! j = chat chats0 !! j
      end.
Proof.
  apply (send_message_stores_first chats0
           {| send_chat_id := "no-such-chat"; send_sender_id := "zoe";
              send_text := "hi" |} 1 2 key_a).
  apply lookup_empty.
Defined.

End HandlerSamples.
